(** * e-comm-api: the Flask / SQLAlchemy / marshmallow application of [app.py]

    A shallow embedding of the fifteen route handlers of [app.py] over an
    explicit model of the relational store (the three tables, the
    association table and the constraints declared on their columns) and of
    the marshmallow schemas that validate the request bodies. *)

From Stdlib Require Import ZArith String List PrimFloat FloatOps SpecFloat.
From stdpp Require Import base option list gmap strings fin_maps pretty.

Local Open Scope Z_scope.
Local Open Scope string_scope.
Local Open Scope list_scope.

(** ** JSON values, as [request.json] delivers them and [jsonify] renders them *)

#[warnings="-register-all"] Inductive json :=
| JNull
| JBool (b : bool)
| JInt (z : Z)
| JFloat (f : float)
| JStr (s : string)
| JArr (xs : list json)
| JObj (kvs : list (string * json)).

(** Subscripting / [dict.get] on a dictionary kept as an association list. *)
Fixpoint getitem {A : Type} (d : list (string * A)) (k : string) : option A :=
  match d with
  | [] => None
  | (k', v) :: d' => if String.eqb k' k then Some v else getitem d' k
  end.

(** Keyed entries in ascending key order: what a store returns for a query
    without ORDER BY (rows in primary-key order), and what [jsonify] emits
    for a dictionary (keys sorted). *)
Fixpoint insert_by {K A : Type} (le : K -> K -> bool) (x : K * A)
    (l : list (K * A)) : list (K * A) :=
  match l with
  | [] => [x]
  | y :: l' => if le x.1 y.1 then x :: y :: l' else y :: insert_by le x l'
  end.

Definition sort_by {K A : Type} (le : K -> K -> bool) (l : list (K * A))
  : list (K * A) :=
  foldr (insert_by le) [] l.

(** ** What the Python runtime contributes and [app.py] does not fix

    Timestamps are opaque to the handlers; the parsing of numerals and ISO
    timestamps held in JSON strings is Python's. *)

Class Runtime := {
  datetime : Type;
  int_of_str : string -> option Z;
  float_of_str : string -> option float;
  from_iso_datetime : string -> option datetime;
  isoformat : datetime -> string
}.

(** Result of a Python numeric conversion: a value, [ValueError] /
    [TypeError], or [OverflowError]. *)
Inductive conv (A : Type) :=
| Conv (a : A)
| NotANumber
| TooLarge.
Arguments Conv {A} a.
Arguments NotANumber {A}.
Arguments TooLarge {A}.

(** [int(f)] on a float: truncation toward zero. *)
Definition int_of_float (f : float) : conv Z :=
  match Prim2SF f with
  | S754_zero _ => Conv 0
  | S754_infinity _ => TooLarge
  | S754_nan => NotANumber
  | S754_finite s m e =>
      let v := Z.shiftl (Z.pos m) e in
      Conv (if s then - v else v)
  end.

(** [float(z)] on an int: round to nearest even, [OverflowError] past the
    largest double. *)
Definition float_of_int (z : Z) : conv float :=
  let f := SF2Prim (binary_normalize prec emax z 0 false) in
  if is_infinity f then TooLarge else Conv f.

(** ** marshmallow: fields, schemas and [Schema.load] *)

Module marshmallow.

Inductive field_kind := Integer | Float | String | DateTime.

Inductive validator := Length (max : nat).

Record Field := {
  kind : field_kind;
  required : bool;
  allow_none : bool;
  validate : list validator
}.

(** [Meta.unknown]; a schema that does not set it gets [RAISE]. *)
Inductive unknown_policy := RAISE | EXCLUDE | INCLUDE.

Record Schema := {
  fields : list (string * Field);
  unknown : unknown_policy
}.

Section Load.
Context `{Runtime}.

(** Deserialized values held by the dictionary [load] returns. *)
Inductive value :=
| VNone
| VInt (z : Z)
| VFloat (f : float)
| VStr (s : string)
| VDateTime (d : datetime)
| VRaw (j : json).

(** [ValidationError.messages]: field name to list of reasons. *)
Definition messages := list (string * list string).

Definition invalid_message (k : field_kind) : string :=
  match k with
  | Integer => "Not a valid integer."
  | Float => "Not a valid number."
  | String => "Not a valid string."
  | DateTime => "Not a valid datetime."
  end.

Definition of_conv {A} (k : field_kind) (mk : A -> value) (c : conv A)
  : string + value :=
  match c with
  | Conv a => inr (mk a)
  | NotANumber => inl (invalid_message k)
  | TooLarge => inl "Number too large."
  end.

Definition no_special (c : conv float) : string + value :=
  match c with
  | Conv f =>
      if is_nan f || is_infinity f
      then inl "Special numeric values (nan or infinity) are not permitted."
      else inr (VFloat f)
  | NotANumber => inl (invalid_message Float)
  | TooLarge => inl "Number too large."
  end.

Definition of_option {A} (o : option A) : conv A :=
  match o with Some a => Conv a | None => NotANumber end.

(** [Field._deserialize] for each field class, on a value that is
    neither missing nor [None]. *)
Definition _deserialize (k : field_kind) (j : json) : string + value :=
  match k, j with
  | String, JStr s => inr (VStr s)
  | Integer, JInt z => inr (VInt z)
  | Integer, JFloat f => of_conv Integer VInt (int_of_float f)
  | Integer, JStr s => of_conv Integer VInt (of_option (int_of_str s))
  | Float, JInt z => no_special (float_of_int z)
  | Float, JFloat f => no_special (Conv f)
  | Float, JStr s => no_special (of_option (float_of_str s))
  | DateTime, JStr s =>
      match from_iso_datetime s with
      | Some d => inr (VDateTime d)
      | None => inl (invalid_message DateTime)
      end
  | _, _ => inl (invalid_message k)
  end.

Definition run_validator (v : validator) (x : value) : list string :=
  match v, x with
  | Length max, VStr s =>
      if bool_decide (max < String.length s)%nat
      then ["Longer than maximum length " +:+ pretty max +:+ "."]
      else []
  | Length _, _ => []
  end.

Definition _validate (vs : list validator) (x : value) : list string :=
  concat (map (fun v => run_validator v x) vs).

Inductive outcome :=
| Loaded (v : value)
| Skipped
| Invalid (reasons : list string).

(** [Field.deserialize]: [raw = None] is marshmallow's [missing]. *)
Definition deserialize (f : Field) (raw : option json) : outcome :=
  match raw with
  | None =>
      if required f then Invalid ["Missing data for required field."]
      else Skipped
  | Some JNull =>
      if allow_none f then Loaded VNone
      else Invalid ["Field may not be null."]
  | Some j =>
      match _deserialize (kind f) j with
      | inl reason => Invalid [reason]
      | inr v =>
          match _validate (validate f) v with
          | [] => Loaded v
          | reasons => Invalid reasons
          end
      end
  end.

Fixpoint load_fields (fs : list (string * Field)) (data : list (string * json))
  : messages * list (string * value) :=
  match fs with
  | [] => ([], [])
  | (name, f) :: fs' =>
      let '(errors, ret_d) := load_fields fs' data in
      match deserialize f (getitem data name) with
      | Loaded v => (errors, (name, v) :: ret_d)
      | Skipped => (errors, ret_d)
      | Invalid reasons => ((name, reasons) :: errors, ret_d)
      end
  end.

(** The entries of the input whose key is not a field of the schema. *)
Definition unknown_entries (S : Schema) (data : list (string * json))
  : list (string * json) :=
  filter (fun kv => kv.1 ∉ (fields S).*1) data.

(** [Schema.load]: [inl] is a raised [ValidationError] with its
    messages, [inr] the deserialized dictionary. *)
Definition load (S : Schema) (data : json)
  : messages + list (string * value) :=
  match data with
  | JObj kvs =>
      let '(errors, ret_d) := load_fields (fields S) kvs in
      let extra := unknown_entries S kvs in
      let '(errors, ret_d) :=
        match unknown S with
        | RAISE =>
            (errors ++ ((fun kv => (kv.1, ["Unknown field."])) <$> extra), ret_d)
        | INCLUDE =>
            (errors, ret_d ++ ((fun kv => (kv.1, VRaw kv.2)) <$> extra))
        | EXCLUDE => (errors, ret_d)
        end in
      match errors with
      | [] => inr ret_d
      | _ => inl errors
      end
  | _ => inl [("_schema", ["Invalid input type."])]
  end.

End Load.

End marshmallow.

(** ** SQLAlchemy: column declarations and the fields marshmallow-sqlalchemy
    derives from them *)

Module sqlalchemy.

Inductive column_type :=
| Integer
| Float
| String (length : nat)
| DateTime.

Record Column := {
  key : string;
  type_ : column_type;
  primary_key : bool;
  nullable : bool;
  unique : bool;
  server_default : bool;
  ForeignKey : option string
}.

(** An integer primary key is the table's auto-increment column. *)
Definition has_default (c : Column) : bool :=
  server_default c || primary_key c.

(** The field [SQLAlchemyAutoSchema] generates for a column. *)
Definition auto_field (c : Column) : marshmallow.Field :=
  {| marshmallow.kind :=
       match type_ c with
       | Integer => marshmallow.Integer
       | Float => marshmallow.Float
       | String _ => marshmallow.String
       | DateTime => marshmallow.DateTime
       end;
     marshmallow.required := negb (nullable c) && negb (has_default c);
     marshmallow.allow_none := nullable c;
     marshmallow.validate :=
       match type_ c with
       | String n => [marshmallow.Length n]
       | _ => []
       end |}.

(** The options a schema's [class Meta] can set; [None] is an option left
    unset. *)
Record Meta := {
  model : list Column;
  include_fk : option bool;
  unknown : option marshmallow.unknown_policy
}.

(** [class S(ma.SQLAlchemyAutoSchema)]: the fields declared in the class
    body, then one generated field per remaining column of the model
    (foreign keys only with [include_fk], which defaults to [False]);
    [unknown] defaults to [RAISE]. *)
Definition SQLAlchemyAutoSchema (meta : Meta)
    (declared_fields : list (string * marshmallow.Field)) : marshmallow.Schema :=
  {| marshmallow.fields :=
       declared_fields ++
       map (fun c => (key c, auto_field c))
         (List.filter
            (fun c =>
               match getitem declared_fields (key c) with
               | Some _ => false
               | None =>
                   match ForeignKey c with
                   | Some _ => default false (include_fk meta)
                   | None => true
                   end
               end) (model meta));
     marshmallow.unknown := default marshmallow.RAISE (unknown meta) |}.

End sqlalchemy.

(** ** Database models *)

Module User.

Definition __tablename__ := "users".

Definition columns : list sqlalchemy.Column :=
  [ {| sqlalchemy.key := "id"; sqlalchemy.type_ := sqlalchemy.Integer;
       sqlalchemy.primary_key := true; sqlalchemy.nullable := false;
       sqlalchemy.unique := false; sqlalchemy.server_default := false;
       sqlalchemy.ForeignKey := None |};
    {| sqlalchemy.key := "name"; sqlalchemy.type_ := sqlalchemy.String 50;
       sqlalchemy.primary_key := false; sqlalchemy.nullable := false;
       sqlalchemy.unique := false; sqlalchemy.server_default := false;
       sqlalchemy.ForeignKey := None |};
    {| sqlalchemy.key := "address"; sqlalchemy.type_ := sqlalchemy.String 150;
       sqlalchemy.primary_key := false; sqlalchemy.nullable := false;
       sqlalchemy.unique := false; sqlalchemy.server_default := false;
       sqlalchemy.ForeignKey := None |};
    {| sqlalchemy.key := "email"; sqlalchemy.type_ := sqlalchemy.String 50;
       sqlalchemy.primary_key := false; sqlalchemy.nullable := false;
       sqlalchemy.unique := true; sqlalchemy.server_default := false;
       sqlalchemy.ForeignKey := None |} ].

(** A row of [users], keyed in the table by its [id]. *)
Record row := {
  name : string;
  address : string;
  email : string
}.

End User.

Module Order.

Definition __tablename__ := "orders".

Definition columns : list sqlalchemy.Column :=
  [ {| sqlalchemy.key := "id"; sqlalchemy.type_ := sqlalchemy.Integer;
       sqlalchemy.primary_key := true; sqlalchemy.nullable := false;
       sqlalchemy.unique := false; sqlalchemy.server_default := false;
       sqlalchemy.ForeignKey := None |};
    {| sqlalchemy.key := "order_date"; sqlalchemy.type_ := sqlalchemy.DateTime;
       sqlalchemy.primary_key := false; sqlalchemy.nullable := false;
       sqlalchemy.unique := false; sqlalchemy.server_default := true;
       sqlalchemy.ForeignKey := None |};
    {| sqlalchemy.key := "user_id"; sqlalchemy.type_ := sqlalchemy.Integer;
       sqlalchemy.primary_key := false; sqlalchemy.nullable := false;
       sqlalchemy.unique := false; sqlalchemy.server_default := false;
       sqlalchemy.ForeignKey := Some "users.id" |} ].

Section Row.
Context `{Runtime}.

(** A row of [orders], keyed in the table by its [id]. *)
Record row := {
  order_date : datetime;
  user_id : Z
}.

End Row.

End Order.

Module Product.

Definition __tablename__ := "products".

Definition columns : list sqlalchemy.Column :=
  [ {| sqlalchemy.key := "id"; sqlalchemy.type_ := sqlalchemy.Integer;
       sqlalchemy.primary_key := true; sqlalchemy.nullable := false;
       sqlalchemy.unique := false; sqlalchemy.server_default := false;
       sqlalchemy.ForeignKey := None |};
    {| sqlalchemy.key := "product_name"; sqlalchemy.type_ := sqlalchemy.String 100;
       sqlalchemy.primary_key := false; sqlalchemy.nullable := false;
       sqlalchemy.unique := false; sqlalchemy.server_default := false;
       sqlalchemy.ForeignKey := None |};
    {| sqlalchemy.key := "price"; sqlalchemy.type_ := sqlalchemy.Float;
       sqlalchemy.primary_key := false; sqlalchemy.nullable := false;
       sqlalchemy.unique := false; sqlalchemy.server_default := false;
       sqlalchemy.ForeignKey := None |} ].

(** A row of [products], keyed in the table by its [id]; [price] is the
    Python float the session holds, and the column is taken to return it
    unchanged. *)
Record row := {
  product_name : string;
  price : float
}.

End Product.

(** ** Schemas *)

Definition UserSchema : marshmallow.Schema :=
  sqlalchemy.SQLAlchemyAutoSchema
    {| sqlalchemy.model := User.columns; sqlalchemy.include_fk := None;
       sqlalchemy.unknown := None |}
    [].

Definition OrderSchema : marshmallow.Schema :=
  sqlalchemy.SQLAlchemyAutoSchema
    {| sqlalchemy.model := Order.columns; sqlalchemy.include_fk := Some true;
       sqlalchemy.unknown := None |}
    [ ("user_id",
       {| marshmallow.kind := marshmallow.Integer; marshmallow.required := true;
          marshmallow.allow_none := false; marshmallow.validate := [] |});
      ("order_date",
       {| marshmallow.kind := marshmallow.DateTime; marshmallow.required := false;
          marshmallow.allow_none := false; marshmallow.validate := [] |}) ].

Definition ProductSchema : marshmallow.Schema :=
  sqlalchemy.SQLAlchemyAutoSchema
    {| sqlalchemy.model := Product.columns; sqlalchemy.include_fk := None;
       sqlalchemy.unknown := None |}
    [].

(** ** The store: three tables and the association table *)

Section App.
Context `{Runtime}.

(** [users], [orders] and [products] map a primary key to its row, each with
    the table's auto-increment counter; [order_product] holds the rows
    (order_id, product_id) of the association table. *)
Record Database := {
  users : gmap Z User.row;
  users_next_id : Z;
  orders : gmap Z Order.row;
  orders_next_id : Z;
  products : gmap Z Product.row;
  products_next_id : Z;
  order_product : list (Z * Z)
}.

(** [db.create_all()] on an empty schema. *)
Definition create_all : Database :=
  {| users := ∅; users_next_id := 1;
     orders := ∅; orders_next_id := 1;
     products := ∅; products_next_id := 1;
     order_product := [] |}.

(** The exceptions that [app.py] itself gives rise to and does not catch:
    the violation of a declared constraint at commit, and a failed
    subscript. Errors of the database driver on values that a column cannot
    hold are outside the model. *)
Inductive exn :=
| IntegrityError
| KeyError.

(** *** Relationships *)

(** [order.products]: the products joined to the order through
    [order_product], in the order of their ids. *)
Definition Order_products (db : Database) (order_id : Z) : list (Z * Product.row) :=
  sort_by Z.leb
    (omap (fun op : Z * Z =>
             if bool_decide (op.1 = order_id)
             then (fun p => (op.2, p)) <$> products db !! op.2
             else None)
          (order_product db)).

(** [product.orders]: the orders joined to the product through
    [order_product], in the order of their ids. *)
Definition Product_orders (db : Database) (product_id : Z) : list (Z * Order.row) :=
  sort_by Z.leb
    (omap (fun op : Z * Z =>
             if bool_decide (op.2 = product_id)
             then (fun o => (op.1, o)) <$> orders db !! op.1
             else None)
          (order_product db)).

(** The rows of a table as a SELECT returns them: by primary key. *)
Definition select_all {A : Type} (table : gmap Z A) : list (Z * A) :=
  sort_by Z.leb (map_to_list table).

(** *** What [db.session.commit()] does with the pending change

    Each function is one flushed change; [inl] is the exception the store's
    constraint raises, in which case the transaction is rolled back. *)

(** [unique=True] on [users.email]: a row other than [self] (the row being
    updated, if any) already has this email. *)
Definition email_taken (db : Database) (e : string) (self : option Z) : Prop :=
  map_Exists (fun k (u : User.row) => User.email u = e ∧ Some k ≠ self) (users db).

Definition insert_user (u : User.row) (db : Database) : exn + (Z * Database) :=
  if bool_decide (email_taken db (User.email u) None) then inl IntegrityError
  else
    let id := users_next_id db in
    inr (id,
         {| users := <[id := u]> (users db); users_next_id := id + 1;
            orders := orders db; orders_next_id := orders_next_id db;
            products := products db; products_next_id := products_next_id db;
            order_product := order_product db |}).

Definition update_user_row (id : Z) (u : User.row) (db : Database) : exn + Database :=
  if bool_decide (email_taken db (User.email u) (Some id)) then inl IntegrityError
  else
    inr {| users := <[id := u]> (users db); users_next_id := users_next_id db;
           orders := orders db; orders_next_id := orders_next_id db;
           products := products db; products_next_id := products_next_id db;
           order_product := order_product db |}.

(** Deleting a user makes the session set [user_id] to NULL on the user's
    orders ([relationship] without a delete cascade); the column is
    [nullable=False], so the flush fails when there is such an order. *)
Definition delete_user_row (id : Z) (db : Database) : exn + Database :=
  if bool_decide (map_Exists (fun _ (o : Order.row) => Order.user_id o = id) (orders db))
  then inl IntegrityError
  else
    inr {| users := delete id (users db); users_next_id := users_next_id db;
           orders := orders db; orders_next_id := orders_next_id db;
           products := products db; products_next_id := products_next_id db;
           order_product := order_product db |}.

(** [ForeignKey('users.id')] on [orders.user_id]. *)
Definition insert_order (o : Order.row) (db : Database) : exn + (Z * Database) :=
  match users db !! Order.user_id o with
  | None => inl IntegrityError
  | Some _ =>
      let id := orders_next_id db in
      inr (id,
           {| users := users db; users_next_id := users_next_id db;
              orders := <[id := o]> (orders db); orders_next_id := id + 1;
              products := products db; products_next_id := products_next_id db;
              order_product := order_product db |})
  end.

Definition insert_product (p : Product.row) (db : Database) : Z * Database :=
  let id := products_next_id db in
  (id,
   {| users := users db; users_next_id := users_next_id db;
      orders := orders db; orders_next_id := orders_next_id db;
      products := <[id := p]> (products db); products_next_id := id + 1;
      order_product := order_product db |}).

Definition update_product_row (id : Z) (p : Product.row) (db : Database) : Database :=
  {| users := users db; users_next_id := users_next_id db;
     orders := orders db; orders_next_id := orders_next_id db;
     products := <[id := p]> (products db); products_next_id := products_next_id db;
     order_product := order_product db |}.

(** [ForeignKey('products.id')] on [order_product.product_id]: a product
    still referenced by an association row cannot be deleted. *)
Definition delete_product_row (id : Z) (db : Database) : exn + Database :=
  if bool_decide (Exists (fun op : Z * Z => op.2 = id) (order_product db))
  then inl IntegrityError
  else
    inr {| users := users db; users_next_id := users_next_id db;
           orders := orders db; orders_next_id := orders_next_id db;
           products := delete id (products db); products_next_id := products_next_id db;
           order_product := order_product db |}.

(** The composite primary key of [order_product] and its two foreign keys. *)
Definition insert_order_product (order_id product_id : Z) (db : Database)
  : exn + Database :=
  if bool_decide ((order_id, product_id) ∈ order_product db) then inl IntegrityError
  else
    match orders db !! order_id, products db !! product_id with
    | Some _, Some _ =>
        inr {| users := users db; users_next_id := users_next_id db;
               orders := orders db; orders_next_id := orders_next_id db;
               products := products db; products_next_id := products_next_id db;
               order_product := order_product db ++ [(order_id, product_id)] |}
    | _, _ => inl IntegrityError
    end.

Definition delete_order_product (order_id product_id : Z) (db : Database) : Database :=
  {| users := users db; users_next_id := users_next_id db;
     orders := orders db; orders_next_id := orders_next_id db;
     products := products db; products_next_id := products_next_id db;
     order_product :=
       filter (fun op => op <> (order_id, product_id)) (order_product db) |}.

(** ** Responses *)

(** What a view function produces: a body with a status, or an exception it
    does not catch. *)
Inductive reply :=
| Response (body : json) (status : Z)
| Raised (e : exn).

(** [jsonify({'message': m})]. *)
Definition message (m : string) : json := JObj [("message", JStr m)].

(** [jsonify(e.messages)]. *)
Definition jsonify_messages (e : marshmallow.messages) : json :=
  JObj (map (fun km : string * list string => (km.1, JArr (map JStr km.2)))
         (sort_by String.leb e)).

(** [schema.jsonify(obj)] is [jsonify(schema.dump(obj))]; dumping [None]
    finds no attribute and yields the empty object. *)
Definition user_schema_dump (user : option (Z * User.row)) : json :=
  match user with
  | None => JObj []
  | Some (id, u) =>
      JObj [("address", JStr (User.address u)); ("email", JStr (User.email u));
            ("id", JInt id); ("name", JStr (User.name u))]
  end.

Definition order_schema_dump (order : option (Z * Order.row)) : json :=
  match order with
  | None => JObj []
  | Some (id, o) =>
      JObj [("id", JInt id); ("order_date", JStr (isoformat (Order.order_date o)));
            ("user_id", JInt (Order.user_id o))]
  end.

Definition product_schema_dump (product : option (Z * Product.row)) : json :=
  match product with
  | None => JObj []
  | Some (id, p) =>
      JObj [("id", JInt id); ("price", JFloat (Product.price p));
            ("product_name", JStr (Product.product_name p))]
  end.

Definition users_schema_dump (l : list (Z * User.row)) : json :=
  JArr (map (fun u => user_schema_dump (Some u)) l).

Definition orders_schema_dump (l : list (Z * Order.row)) : json :=
  JArr (map (fun o => order_schema_dump (Some o)) l).

Definition products_schema_dump (l : list (Z * Product.row)) : json :=
  JArr (map (fun p => product_schema_dump (Some p)) l).

(** ** Routes / endpoints

    Each view function takes the parsed request (path arguments, and
    [request.json] where it reads it) and the store, and yields its reply
    and the store after the request. *)

(** POST /users *)
Definition create_user (request_json : json) (db : Database) : reply * Database :=
  match marshmallow.load UserSchema request_json with
  | inl e => (Response (jsonify_messages e) 400, db)
  | inr user_data =>
      match getitem user_data "name", getitem user_data "address",
            getitem user_data "email" with
      | Some (marshmallow.VStr name), Some (marshmallow.VStr address),
        Some (marshmallow.VStr email) =>
          let new_user :=
            {| User.name := name; User.address := address; User.email := email |} in
          match insert_user new_user db with
          | inl ex => (Raised ex, db)
          | inr (id, db') => (Response (user_schema_dump (Some (id, new_user))) 201, db')
          end
      | _, _, _ => (Raised KeyError, db)
      end
  end.

(** GET /users *)
Definition get_users (db : Database) : reply * Database :=
  (Response (users_schema_dump (select_all (users db))) 200, db).

(** GET /users/<id> *)
Definition get_user (id : Z) (db : Database) : reply * Database :=
  let user := users db !! id in
  (Response (user_schema_dump ((fun u => (id, u)) <$> user)) 200, db).

(** PUT /users/<id> *)
Definition update_user (id : Z) (request_json : json) (db : Database)
  : reply * Database :=
  match users db !! id with
  | None => (Response (message "Invalid user id") 400, db)
  | Some _ =>
      match marshmallow.load UserSchema request_json with
      | inl e => (Response (jsonify_messages e) 400, db)
      | inr user_data =>
          match getitem user_data "name", getitem user_data "address",
                getitem user_data "email" with
          | Some (marshmallow.VStr name), Some (marshmallow.VStr address),
            Some (marshmallow.VStr email) =>
              let user :=
                {| User.name := name; User.address := address; User.email := email |} in
              match update_user_row id user db with
              | inl ex => (Raised ex, db)
              | inr db' => (Response (user_schema_dump (Some (id, user))) 200, db')
              end
          | _, _, _ => (Raised KeyError, db)
          end
      end
  end.

(** DELETE /users/<id>. The success reply passes 200 to [jsonify] as a
    second value, so the body is a two-element array and the status is
    Flask's default. *)
Definition delete_user (id : Z) (db : Database) : reply * Database :=
  match users db !! id with
  | None => (Response (message "Invalid user id") 400, db)
  | Some _ =>
      match delete_user_row id db with
      | inl ex => (Raised ex, db)
      | inr db' =>
          (Response (JArr [message ("Successfully deleted user " +:+ pretty id); JInt 200])
             200, db')
      end
  end.

(** POST /orders. [now] is what the server default [func.now()] yields for
    this insert. *)
Definition create_order (now : datetime) (request_json : json) (db : Database)
  : reply * Database :=
  match marshmallow.load OrderSchema request_json with
  | inl e => (Response (jsonify_messages e) 400, db)
  | inr order_data =>
      match getitem order_data "user_id" with
      | Some (marshmallow.VInt user_id) =>
          match users db !! user_id with
          | None => (Response (message "Invalid user_id") 400, db)
          | Some _ =>
              let order_date :=
                match getitem order_data "order_date" with
                | Some (marshmallow.VDateTime d) => d
                | _ => now
                end in
              let new_order :=
                {| Order.order_date := order_date; Order.user_id := user_id |} in
              match insert_order new_order db with
              | inl ex => (Raised ex, db)
              | inr (id, db') =>
                  (Response (order_schema_dump (Some (id, new_order))) 201, db')
              end
          end
      | _ => (Raised KeyError, db)
      end
  end.

(** GET /orders/user/<user_id> *)
Definition get_orders (user_id : Z) (db : Database) : reply * Database :=
  let orders :=
    filter (fun o : Z * Order.row => Order.user_id o.2 = user_id)
      (select_all (orders db)) in
  match orders with
  | [] => (Response (message "No orders found for this user.") 404, db)
  | _ => (Response (orders_schema_dump orders) 200, db)
  end.

(** GET /orders/<order_id>/products *)
Definition get_products_for_order (order_id : Z) (db : Database) : reply * Database :=
  match orders db !! order_id with
  | None => (Response (message "Order not found") 404, db)
  | Some _ =>
      let products := Order_products db order_id in
      match products with
      | [] => (Response (message "No products found for this order") 404, db)
      | _ => (Response (products_schema_dump products) 200, db)
      end
  end.

(** PUT /orders/<order_id>/add_product/<product_id> *)
Definition add_prod_to_order (order_id product_id : Z) (db : Database)
  : reply * Database :=
  match orders db !! order_id, products db !! product_id with
  | None, _ => (Response (message "Invalid order ID") 400, db)
  | Some _, None => (Response (message "Invalid product ID") 400, db)
  | Some order, Some _ =>
      if bool_decide (product_id ∈ (Order_products db order_id).*1)
      then (Response (message "Product already exists in the order") 400, db)
      else
        match insert_order_product order_id product_id db with
        | inl ex => (Raised ex, db)
        | inr db' => (Response (order_schema_dump (Some (order_id, order))) 200, db')
        end
  end.

(** DELETE /orders/<order_id>/remove_product/<product_id> *)
Definition remove_prod_from_order (order_id product_id : Z) (db : Database)
  : reply * Database :=
  match orders db !! order_id, products db !! product_id with
  | None, _ => (Response (message "Invalid order ID") 400, db)
  | Some _, None => (Response (message "Invalid product ID") 400, db)
  | Some _, Some _ =>
      if negb (bool_decide (product_id ∈ (Order_products db order_id).*1))
      then (Response (message "Product not found in the order") 404, db)
      else
        (Response
           (message ("Product " +:+ pretty product_id +:+ " removed from order "
                     +:+ pretty order_id))
           200,
         delete_order_product order_id product_id db)
  end.

(** POST /products *)
Definition create_product (request_json : json) (db : Database) : reply * Database :=
  match marshmallow.load ProductSchema request_json with
  | inl e => (Response (jsonify_messages e) 400, db)
  | inr product_data =>
      match getitem product_data "product_name", getitem product_data "price" with
      | Some (marshmallow.VStr product_name), Some (marshmallow.VFloat price) =>
          let new_product :=
            {| Product.product_name := product_name; Product.price := price |} in
          let '(id, db') := insert_product new_product db in
          (Response (product_schema_dump (Some (id, new_product))) 201, db')
      | _, _ => (Raised KeyError, db)
      end
  end.

(** GET /products *)
Definition get_products (db : Database) : reply * Database :=
  (Response (products_schema_dump (select_all (products db))) 200, db).

(** GET /products/<id> *)
Definition get_product (id : Z) (db : Database) : reply * Database :=
  let product := products db !! id in
  (Response (product_schema_dump ((fun p => (id, p)) <$> product)) 200, db).

(** PUT /products/<id> *)
Definition update_product (id : Z) (request_json : json) (db : Database)
  : reply * Database :=
  match products db !! id with
  | None => (Response (message "Product not found") 404, db)
  | Some _ =>
      match marshmallow.load ProductSchema request_json with
      | inl e => (Response (jsonify_messages e) 400, db)
      | inr product_data =>
          match getitem product_data "product_name", getitem product_data "price" with
          | Some (marshmallow.VStr product_name), Some (marshmallow.VFloat price) =>
              let product :=
                {| Product.product_name := product_name; Product.price := price |} in
              (Response (product_schema_dump (Some (id, product))) 200,
               update_product_row id product db)
          | _, _ => (Raised KeyError, db)
          end
      end
  end.

(** DELETE /products/<id> *)
Definition delete_product (id : Z) (db : Database) : reply * Database :=
  match products db !! id with
  | None => (Response (message "Product not found") 404, db)
  | Some _ =>
      match Product_orders db id with
      | _ :: _ =>
          (Response
             (message "Cannot delete product because it is associated with orders")
             400, db)
      | [] =>
          match delete_product_row id db with
          | inl ex => (Raised ex, db)
          | inr db' =>
              (Response
                 (JArr [message ("Successfully deleted product " +:+ pretty id); JInt 200])
                 200, db')
          end
      end
  end.

(** ** The router: one request, and a sequence of requests

    Path arguments are the integers the [<int:...>] converters parsed;
    [POST_orders] also carries the time of the insert. *)

Inductive request :=
| POST_users (request_json : json)
| GET_users
| GET_users_id (id : Z)
| PUT_users_id (id : Z) (request_json : json)
| DELETE_users_id (id : Z)
| POST_orders (now : datetime) (request_json : json)
| GET_orders_user (user_id : Z)
| GET_orders_products (order_id : Z)
| PUT_orders_add_product (order_id product_id : Z)
| DELETE_orders_remove_product (order_id product_id : Z)
| POST_products (request_json : json)
| GET_products
| GET_products_id (id : Z)
| PUT_products_id (id : Z) (request_json : json)
| DELETE_products_id (id : Z).

Definition route (r : request) (db : Database) : reply * Database :=
  match r with
  | POST_users j => create_user j db
  | GET_users => get_users db
  | GET_users_id id => get_user id db
  | PUT_users_id id j => update_user id j db
  | DELETE_users_id id => delete_user id db
  | POST_orders now j => create_order now j db
  | GET_orders_user user_id => get_orders user_id db
  | GET_orders_products order_id => get_products_for_order order_id db
  | PUT_orders_add_product order_id product_id => add_prod_to_order order_id product_id db
  | DELETE_orders_remove_product order_id product_id =>
      remove_prod_from_order order_id product_id db
  | POST_products j => create_product j db
  | GET_products => get_products db
  | GET_products_id id => get_product id db
  | PUT_products_id id j => update_product id j db
  | DELETE_products_id id => delete_product id db
  end.

(** The store after serving the requests in order. *)
Definition serve (rs : list request) (db : Database) : Database :=
  fold_left (fun db r => (route r db).2) rs db.

(** The referential state of the association table: no pair twice (its
    composite primary key) and both ids of every pair present (its foreign
    keys). *)
Definition association_integrity (db : Database) : Prop :=
  NoDup (order_product db) /\
  forall order_id product_id,
    (order_id, product_id) ∈ order_product db ->
    is_Some (orders db !! order_id) /\ is_Some (products db !! product_id).

End App.

(** ** Invariants of the three entity tables *)

Section Invariants.
Context `{Runtime}.

(** [unique=True] on [users.email]: no two rows of [users] share an email. *)
Definition emails_unique (db : Database) : Prop :=
  forall id1 id2 u1 u2,
    users db !! id1 = Some u1 -> users db !! id2 = Some u2 ->
    User.email u1 = User.email u2 -> id1 = id2.

(** [ForeignKey('users.id')] on [orders.user_id]: every order belongs to a
    stored user. *)
Definition orders_have_users (db : Database) : Prop :=
  forall id o, orders db !! id = Some o -> is_Some (users db !! Order.user_id o).

(** Every primary key in a table was handed out by that table's counter. *)
Definition ids_assigned (db : Database) : Prop :=
  (1 <= users_next_id db /\
   forall id, is_Some (users db !! id) -> 1 <= id < users_next_id db) /\
  (1 <= orders_next_id db /\
   forall id, is_Some (orders db !! id) -> 1 <= id < orders_next_id db) /\
  (1 <= products_next_id db /\
   forall id, is_Some (products db !! id) -> 1 <= id < products_next_id db).

(** The declared column bounds: [String(50)], [String(150)], [String(50)]
    on [users], [String(100)] on [products], and a price that is a number. *)
Definition rows_fit_columns (db : Database) : Prop :=
  (forall id u, users db !! id = Some u ->
     (String.length (User.name u) <= 50)%nat /\
     (String.length (User.address u) <= 150)%nat /\
     (String.length (User.email u) <= 50)%nat) /\
  (forall id p, products db !! id = Some p ->
     (String.length (Product.product_name p) <= 100)%nat /\
     is_nan (Product.price p) || is_infinity (Product.price p) = false).

(** A [users] row, and a [products] row, within the bounds of its columns. *)
Definition fits_user (u : User.row) : Prop :=
  (String.length (User.name u) <= 50)%nat /\
  (String.length (User.address u) <= 150)%nat /\
  (String.length (User.email u) <= 50)%nat.

Definition fits_product (p : Product.row) : Prop :=
  (String.length (Product.product_name p) <= 100)%nat /\
  is_nan (Product.price p) || is_infinity (Product.price p) = false.

(** What one request can have committed: nothing, or exactly one of the
    flushed changes, with what the view function established before it. *)
Inductive committed (db : Database) : Database -> Prop :=
| committed_nothing :
    committed db db
| committed_insert_user u id db' :
    fits_user u -> insert_user u db = inr (id, db') -> committed db db'
| committed_update_user id u db' :
    is_Some (users db !! id) -> fits_user u ->
    update_user_row id u db = inr db' -> committed db db'
| committed_delete_user id db' :
    delete_user_row id db = inr db' -> committed db db'
| committed_insert_order o id db' :
    insert_order o db = inr (id, db') -> committed db db'
| committed_insert_order_product order_id product_id db' :
    insert_order_product order_id product_id db = inr db' -> committed db db'
| committed_delete_order_product order_id product_id :
    committed db (delete_order_product order_id product_id db)
| committed_insert_product p :
    fits_product p -> committed db (insert_product p db).2
| committed_update_product id p :
    is_Some (products db !! id) -> fits_product p ->
    committed db (update_product_row id p db)
| committed_delete_product id db' :
    delete_product_row id db = inr db' -> committed db db'.

(** The requests that write the [users] table. *)
Definition writes_users (r : request) : bool :=
  match r with
  | POST_users _ | PUT_users_id _ _ | DELETE_users_id _ => true
  | _ => false
  end.

End Invariants.

(** A runtime for the closed examples: timestamps are integers, and no
    string is read as a numeral or as a timestamp (the examples pass numbers
    as JSON numbers and no [order_date]). *)
Definition plain_runtime : Runtime :=
  {| datetime := Z;
     int_of_str := fun _ => None;
     float_of_str := fun _ => None;
     from_iso_datetime := fun _ => None;
     isoformat := fun d => pretty d |}.

(** The payloads and the request sequence of the end-to-end example: one
    user, one order of that user, one product, and the product added to the
    order. *)
Definition alice : json :=
  JObj [("name", JStr "A"); ("address", JStr "X"); ("email", JStr "a@x.com")].

Definition bob : json :=
  JObj [("name", JStr "B"); ("address", JStr "Y"); ("email", JStr "b@y.com")].

(** [bob]'s name and address with [alice]'s email. *)
Definition bob_as_alice : json :=
  JObj [("name", JStr "B"); ("address", JStr "Y"); ("email", JStr "a@x.com")].

#[warnings="-inexact-float"] Definition widget_price : float := 9.99.

Definition widget : json :=
  JObj [("product_name", JStr "Widget"); ("price", JFloat widget_price)].

(** The same product at a price below zero. *)
Definition refund : json :=
  JObj [("product_name", JStr "Widget"); ("price", JFloat (-1))].

(** [alice] with a field no schema declares. *)
Definition alice_nickname : json :=
  JObj [("name", JStr "A"); ("address", JStr "X"); ("email", JStr "a@x.com");
        ("nickname", JStr "al")].

Definition order_for (user_id : Z) : json := JObj [("user_id", JInt user_id)].

(** The time at which the example's order is inserted. *)
Definition epoch : @datetime plain_runtime := 0.

Definition stocked : list (@request plain_runtime) :=
  [POST_users alice; POST_orders epoch (order_for 1); POST_products widget].

Definition shop : list (@request plain_runtime) :=
  stocked ++ [PUT_orders_add_product 1 1].

(** A name of 51 characters, one more than the [name] column holds. *)
Definition long_name : string :=
  "aaaaaaaaaaaaaaaaaaaaaaaaaaaaaaaaaaaaaaaaaaaaaaaaaaa".

(** One order and two products, the second of which is in the order. *)
Definition second_product_first : list (@request plain_runtime) :=
  stocked ++ [POST_products refund; PUT_orders_add_product 1 2].

(** Two users and an order of the first. *)
Definition two_users : list (@request plain_runtime) :=
  [POST_users alice; POST_users bob; POST_orders epoch (order_for 1)].

(** * Properties *)

Section Properties.
Context `{Runtime}.

Import marshmallow.

(** ** Validation *)

Lemma deserialize_String_Loaded f raw v :
  kind f = String -> allow_none f = false ->
  deserialize f raw = Loaded v ->
  exists s, v = VStr s /\ raw = Some (JStr s).
Proof.
  intros Hk Hn. unfold deserialize. rewrite Hk, Hn.
  destruct raw as [j|]; [|destruct (required f); discriminate].
  destruct j; simpl; try discriminate.
  destruct (_validate _ _); [|discriminate].
  intros [= <-]. eauto.
Qed.

Lemma deserialize_Integer_Loaded f raw v :
  kind f = Integer -> allow_none f = false ->
  deserialize f raw = Loaded v -> exists z, v = VInt z.
Proof.
  intros Hk Hn. unfold deserialize. rewrite Hk, Hn.
  destruct raw as [j|]; [|destruct (required f); discriminate].
  destruct j; simpl; try discriminate.
  - destruct (_validate _ _); [|discriminate]. intros [= <-]. eauto.
  - destruct (int_of_float f0); simpl; try discriminate.
    destruct (_validate _ _); [|discriminate]. intros [= <-]. eauto.
  - destruct (int_of_str s); simpl; try discriminate.
    destruct (_validate _ _); [|discriminate]. intros [= <-]. eauto.
Qed.

Lemma no_special_inr c v :
  no_special c = inr v -> exists p, v = VFloat p /\ is_nan p || is_infinity p = false.
Proof.
  destruct c as [p| |]; simpl; try discriminate.
  destruct (is_nan p || is_infinity p) eqn:E; [discriminate|].
  intros [= <-]. eauto.
Qed.

Lemma _deserialize_Float j v :
  _deserialize Float j = inr v ->
  exists p, v = VFloat p /\ is_nan p || is_infinity p = false.
Proof.
  destruct j; cbn [_deserialize]; try discriminate; apply no_special_inr.
Qed.

Lemma deserialize_Float_Loaded f raw v :
  kind f = Float -> allow_none f = false ->
  deserialize f raw = Loaded v ->
  exists p, v = VFloat p /\ is_nan p || is_infinity p = false.
Proof.
  intros Hk Hn. unfold deserialize. rewrite Hk, Hn.
  destruct raw as [j|]; [|destruct (required f); discriminate].
  destruct (_deserialize Float j) as [?|w] eqn:E.
  { destruct j; discriminate. }
  apply _deserialize_Float in E.
  destruct j; try discriminate.
  all: destruct (_validate _ _); [|discriminate].
  all: intros [= <-]; exact E.
Qed.

Lemma deserialize_required_not_Skipped f raw :
  required f = true -> deserialize f raw <> Skipped.
Proof.
  intros Hr. unfold deserialize. rewrite Hr.
  destruct raw as [j|]; [|discriminate].
  destruct j; repeat case_match; discriminate.
Qed.

(** Unfolds [load] on a concrete schema and splits on the outcome of every
    field; only the branches without an error survive. *)
Ltac load_cases S Hl :=
  unfold load in Hl;
  let fs := eval vm_compute in (fields S) in
  change (fields S) with fs in Hl;
  let u := eval vm_compute in (unknown S) in
  change (unknown S) with u in Hl;
  cbn [load_fields] in Hl;
  repeat match type of Hl with
         | context [deserialize ?f ?r] =>
             let E := fresh "E" in destruct (deserialize f r) eqn:E
         end;
  cbn [app] in Hl; try discriminate Hl;
  destruct (unknown_entries S _); cbn [fmap list_fmap app] in Hl;
  try discriminate Hl;
  injection Hl as <-.

Ltac field_shape :=
  repeat match goal with
         | E : deserialize _ _ = Skipped |- _ =>
             first [ by (apply deserialize_required_not_Skipped in E)
                   | clear E ]
         | E : deserialize ?f _ = Loaded _ |- _ =>
             first [ apply deserialize_String_Loaded in E as (? & -> & ?); [|done..]
                   | apply deserialize_Float_Loaded in E as (? & -> & ?); [|done..]
                   | apply deserialize_Integer_Loaded in E as (? & ->); [|done..]
                   | clear E ]
         end.

Lemma load_UserSchema_inr body d :
  load UserSchema body = inr d ->
  exists name address email,
    getitem d "name" = Some (VStr name) /\
    getitem d "address" = Some (VStr address) /\
    getitem d "email" = Some (VStr email).
Proof.
  intros Hl. destruct body; try discriminate.
  load_cases UserSchema Hl; field_shape; cbn; eauto 10.
Qed.

Lemma load_ProductSchema_inr body d :
  load ProductSchema body = inr d ->
  exists product_name price,
    getitem d "product_name" = Some (VStr product_name) /\
    getitem d "price" = Some (VFloat price) /\
    is_nan price || is_infinity price = false.
Proof.
  intros Hl. destruct body; try discriminate.
  load_cases ProductSchema Hl; field_shape; cbn; eauto 10.
Qed.

Lemma load_OrderSchema_inr body d :
  load OrderSchema body = inr d ->
  exists user_id, getitem d "user_id" = Some (VInt user_id).
Proof.
  intros Hl. destruct body; try discriminate.
  load_cases OrderSchema Hl; field_shape; cbn; eauto 10.
Qed.

(** ** The association table keeps its keys *)

Lemma association_integrity_create_all : association_integrity create_all.
Proof.
  split; [constructor|]. intros o p Hin. by apply elem_of_nil in Hin.
Qed.

(** A change that leaves [order_product] alone, keeps every order and keeps
    the products that some pair refers to. *)
Lemma association_integrity_frame db db' :
  association_integrity db ->
  order_product db' = order_product db ->
  (forall o, is_Some (orders db !! o) -> is_Some (orders db' !! o)) ->
  (forall o p, (o, p) ∈ order_product db -> is_Some (products db' !! p)) ->
  association_integrity db'.
Proof.
  intros [Hnd Hfk] Hop Ho Hp. split; rewrite Hop; [done|].
  intros o p Hin. split; [apply Ho; by eapply Hfk|by eapply Hp].
Qed.

Lemma association_integrity_same_tables db db' :
  association_integrity db ->
  order_product db' = order_product db ->
  orders db' = orders db ->
  products db' = products db ->
  association_integrity db'.
Proof.
  intros Hi Hop Ho Hp. eapply association_integrity_frame; eauto.
  - intros o. by rewrite Ho.
  - intros o p Hin. rewrite Hp. by eapply Hi.
Qed.

Lemma insert_user_integrity u db id db' :
  association_integrity db -> insert_user u db = inr (id, db') ->
  association_integrity db'.
Proof.
  unfold insert_user. intros Hi. case_bool_decide; [done|].
  intros [= <- <-]. by eapply association_integrity_same_tables.
Qed.

Lemma update_user_row_integrity id u db db' :
  association_integrity db -> update_user_row id u db = inr db' ->
  association_integrity db'.
Proof.
  unfold update_user_row. intros Hi. case_bool_decide; [done|].
  intros [= <-]. by eapply association_integrity_same_tables.
Qed.

Lemma delete_user_row_integrity id db db' :
  association_integrity db -> delete_user_row id db = inr db' ->
  association_integrity db'.
Proof.
  unfold delete_user_row. intros Hi. case_bool_decide; [done|].
  intros [= <-]. by eapply association_integrity_same_tables.
Qed.

Lemma insert_order_integrity o db id db' :
  association_integrity db -> insert_order o db = inr (id, db') ->
  association_integrity db'.
Proof.
  unfold insert_order. intros Hi. destruct (users db !! _); [|done].
  intros [= <- <-]. eapply association_integrity_frame; eauto; simpl.
  - intros k Hk. rewrite lookup_insert_is_Some. destruct (decide (orders_next_id db = k)); auto.
  - intros k p Hin. by eapply Hi.
Qed.

Lemma insert_product_integrity p db :
  association_integrity db -> association_integrity (insert_product p db).2.
Proof.
  intros Hi. eapply association_integrity_frame; eauto; simpl.
  intros o k Hin. rewrite lookup_insert_is_Some.
  destruct (decide (products_next_id db = k)); [auto|]. right. split; [done|].
  by eapply Hi.
Qed.

Lemma update_product_row_integrity id p db :
  association_integrity db -> association_integrity (update_product_row id p db).
Proof.
  intros Hi. eapply association_integrity_frame; eauto; simpl.
  intros o k Hin. rewrite lookup_insert_is_Some.
  destruct (decide (id = k)); [auto|]. right. split; [done|].
  by eapply Hi.
Qed.

Lemma delete_product_row_integrity id db db' :
  association_integrity db -> delete_product_row id db = inr db' ->
  association_integrity db'.
Proof.
  unfold delete_product_row. intros Hi. case_bool_decide as Hex; [done|].
  intros [= <-]. eapply association_integrity_frame; eauto; simpl.
  intros o k Hin. rewrite lookup_delete_is_Some. split.
  - intros ->. apply Hex, Exists_exists. by exists (o, k).
  - by eapply Hi.
Qed.

Lemma insert_order_product_integrity o p db db' :
  association_integrity db -> insert_order_product o p db = inr db' ->
  association_integrity db'.
Proof.
  unfold insert_order_product. intros [Hnd Hfk]. case_bool_decide as Hin; [done|].
  destruct (orders db !! o) eqn:Ho; [|done].
  destruct (products db !! p) eqn:Hp; [|done].
  intros [= <-]. split; simpl.
  - apply NoDup_app. split; [done|]. split; [|apply NoDup_singleton].
    intros x Hx ->%list_elem_of_singleton. done.
  - intros o' p' [Hin'|Heq%list_elem_of_singleton]%elem_of_app; [by apply Hfk|].
    injection Heq as -> ->. by rewrite Ho, Hp.
Qed.

Lemma delete_order_product_integrity o p db :
  association_integrity db -> association_integrity (delete_order_product o p db).
Proof.
  intros [Hnd Hfk]. split; simpl.
  - by apply NoDup_filter.
  - intros o' p' [_ Hin]%list_elem_of_filter. by apply Hfk.
Qed.

(** Every request leaves the association table with its keys. *)
Lemma route_integrity r db :
  association_integrity db -> association_integrity (route r db).2.
Proof.
  intros Hi.
  destruct r; simpl;
    unfold create_user, get_users, get_user, update_user, delete_user,
      create_order, get_orders, get_products_for_order, add_prod_to_order,
      remove_prod_from_order, create_product, get_products, get_product,
      update_product, delete_product;
    repeat case_match; simpl; try done;
    eauto using insert_user_integrity, update_user_row_integrity,
      delete_user_row_integrity, insert_order_integrity,
      update_product_row_integrity, delete_product_row_integrity,
      insert_order_product_integrity, delete_order_product_integrity.
  all: match goal with
       | E : insert_product ?p ?db = _ |- _ =>
           pose proof (insert_product_integrity p db Hi) as Hp;
           by rewrite E in Hp
       end.
Qed.

Lemma serve_integrity rs db :
  association_integrity db -> association_integrity (serve rs db).
Proof.
  revert db. induction rs as [|r rs IH]; intros db Hi; simpl; [done|].
  apply IH. by apply route_integrity.
Qed.

(** ** Entries in key order *)

Lemma elem_of_insert_by {K A} (le : K -> K -> bool) (x y : K * A) l :
  y ∈ insert_by le x l <-> y = x \/ y ∈ l.
Proof.
  induction l as [|z l IH]; simpl.
  - rewrite list_elem_of_singleton, elem_of_nil. tauto.
  - destruct (le x.1 z.1); rewrite !elem_of_cons; [tauto|].
    rewrite IH. tauto.
Qed.

Lemma elem_of_sort_by {K A} (le : K -> K -> bool) (l : list (K * A)) y :
  y ∈ sort_by le l <-> y ∈ l.
Proof.
  unfold sort_by. induction l as [|x l IH]; simpl; [done|].
  rewrite elem_of_insert_by, IH, elem_of_cons. tauto.
Qed.

Lemma sort_by_nil {K A} (le : K -> K -> bool) (l : list (K * A)) :
  sort_by le l = [] <-> l = [].
Proof.
  split; [|by intros ->]. intros Hs. destruct l as [|x l]; [done|].
  assert (x ∈ sort_by le (x :: l)) as Hin by (apply elem_of_sort_by; by left).
  rewrite Hs in Hin. by apply elem_of_nil in Hin.
Qed.

Lemma length_filter_insert_by {K A} (P : K * A -> Prop) `{forall x, Decision (P x)}
    (le : K -> K -> bool) x l :
  length (filter P (insert_by le x l)) = length (filter P (x :: l)).
Proof.
  induction l as [|z l IH]; simpl; [done|].
  destruct (le x.1 z.1); [done|].
  rewrite !filter_cons in *.
  destruct (decide (P z)), (decide (P x)); simpl in *; lia.
Qed.

Lemma length_filter_sort_by {K A} (P : K * A -> Prop) `{forall x, Decision (P x)}
    (le : K -> K -> bool) l :
  length (filter P (sort_by le l)) = length (filter P l).
Proof.
  unfold sort_by. induction l as [|x l IH]; simpl; [done|].
  rewrite length_filter_insert_by, !filter_cons.
  destruct (decide (P x)); simpl; lia.
Qed.

Lemma fmap_insert_by {K A} (f : K * A -> K * A) (le : K -> K -> bool) x l :
  (forall z, (f z).1 = z.1) ->
  f <$> insert_by le x l = insert_by le (f x) (f <$> l).
Proof.
  intros Hf. induction l as [|z l IH]; simpl; [done|].
  rewrite !Hf. destruct (le x.1 z.1); simpl; [done|]. f_equal. exact IH.
Qed.

Lemma fmap_sort_by {K A} (f : K * A -> K * A) (le : K -> K -> bool) l :
  (forall z, (f z).1 = z.1) ->
  f <$> sort_by le l = sort_by le (f <$> l).
Proof.
  intros Hf. unfold sort_by. induction l as [|x l IH]; [done|].
  rewrite fmap_cons. cbn [foldr]. rewrite fmap_insert_by by done.
  by rewrite IH.
Qed.

Lemma elem_of_select_all {A} (table : gmap Z A) id (row : A) :
  (id, row) ∈ select_all table <-> table !! id = Some row.
Proof. unfold select_all. by rewrite elem_of_sort_by, elem_of_map_to_list. Qed.

(** ** Relationships and the association table *)

Lemma elem_of_Order_products db order_id product_id :
  product_id ∈ (Order_products db order_id).*1 <->
  (order_id, product_id) ∈ order_product db /\ is_Some (products db !! product_id).
Proof.
  unfold Order_products. rewrite list_elem_of_fmap. split.
  - intros ([i p] & -> & Hin). apply elem_of_sort_by in Hin.
    apply list_elem_of_omap in Hin as ([o i'] & Hin & Hf).
    simpl in Hf. case_bool_decide as Ho; [|done].
    destruct (products db !! i') as [p'|] eqn:Hp; [|done].
    simpl in *. injection Hf as <- <-. subst o. rewrite Hp. eauto.
  - intros [Hin [p Hp]]. exists (product_id, p). split; [done|].
    apply elem_of_sort_by.
    apply list_elem_of_omap. exists (order_id, product_id). split; [done|].
    simpl. rewrite bool_decide_eq_true_2 by done. by rewrite Hp.
Qed.

Lemma omap_cons_eq {A B} (f : A -> option B) (x : A) (l : list A) :
  omap f (x :: l) =
  match f x with Some y => y :: omap f l | None => omap f l end.
Proof. done. Qed.

Lemma Product_orders_nil db product_id :
  (forall order_id, (order_id, product_id) ∉ order_product db) ->
  Product_orders db product_id = [].
Proof.
  unfold Product_orders. rewrite sort_by_nil. generalize (order_product db) as l.
  induction l as [|[o i] l IH]; intros Hno; [done|].
  rewrite omap_cons_eq, IH by (intros o' Hin; apply (Hno o'); by right).
  cbn [fst snd]. case_bool_decide as Hi; [|done]. subst i.
  destruct (Hno o). by left.
Qed.

Lemma Product_orders_cons db order_id product_id :
  (order_id, product_id) ∈ order_product db ->
  is_Some (orders db !! order_id) ->
  exists x xs, Product_orders db product_id = x :: xs.
Proof.
  intros Hin Ho.
  cut (Product_orders db product_id <> []).
  { destruct (Product_orders db product_id); [done|eauto]. }
  unfold Product_orders. rewrite sort_by_nil.
  cut (exists x xs,
         omap (fun op : Z * Z =>
                 if bool_decide (op.2 = product_id)
                 then (fun o => (op.1, o)) <$> orders db !! op.1
                 else None) (order_product db) = x :: xs).
  { intros (x & xs & ->). done. }
  revert Hin Ho. generalize (order_product db) as l.
  intros l Hin [order Ho].
  induction l as [|[o i] l IH]; [by apply elem_of_nil in Hin|].
  rewrite omap_cons_eq. cbn [fst snd].
  apply elem_of_cons in Hin as [[= <- <-]|Hin].
  - rewrite bool_decide_eq_true_2 by done. rewrite Ho. simpl. eauto.
  - destruct (IH Hin) as (x & xs & ->).
    case_bool_decide; [|eauto]. destruct (orders db !! o); simpl; eauto.
Qed.

Lemma filter_ne_id (l : list (Z * Z)) (x : Z * Z) :
  x ∉ l -> filter (fun y => y <> x) l = l.
Proof.
  induction l as [|y l IH]; intros Hx; [done|].
  apply not_elem_of_cons in Hx as [Hne Hx].
  rewrite filter_cons_True by done. by rewrite IH.
Qed.

(** How often a product shows in [order.products]: as often as its pair
    occurs in the association table. *)
Lemma Order_products_count db order_id product_id :
  is_Some (products db !! product_id) ->
  length (filter (fun p : Z * Product.row => p.1 = product_id)
            (Order_products db order_id)) =
  length (filter (fun op => op = (order_id, product_id)) (order_product db)).
Proof.
  intros [p Hp]. unfold Order_products. rewrite length_filter_sort_by.
  generalize (order_product db) as l.
  induction l as [|[o i] l IH]; [done|].
  rewrite omap_cons_eq, (filter_cons (fun op => op = (order_id, product_id))).
  cbn [fst snd]. case_bool_decide as Ho.
  - subst o. destruct (decide (i = product_id)) as [->|Hne].
    + rewrite Hp. simpl. rewrite filter_cons_True by done.
      rewrite decide_True by done. simpl. by rewrite IH.
    + rewrite decide_False by congruence.
      destruct (products db !! i); simpl; [|done].
      by rewrite filter_cons_False.
  - rewrite decide_False by congruence. done.
Qed.

Lemma NoDup_count_one (l : list (Z * Z)) (x : Z * Z) :
  NoDup l -> x ∈ l -> length (filter (fun y => y = x) l) = 1%nat.
Proof.
  induction 1 as [|y l Hy Hnd IH]; intros Hin; [by apply elem_of_nil in Hin|].
  apply elem_of_cons in Hin as [->|Hin].
  - rewrite filter_cons_True by done. simpl. f_equal.
    destruct (filter (fun y0 => y0 = y) l) as [|z zs] eqn:Hf; [done|].
    assert (z ∈ filter (fun y0 => y0 = y) l) as Hz by (rewrite Hf; by left).
    apply list_elem_of_filter in Hz as [-> Hz]. done.
  - rewrite filter_cons_False; [by apply IH|]. intros ->. done.
Qed.

(** ** Reading one entity *)

(** C9: on an id with no matching row, [get_user] answers with the empty
    object and status 200, not with a not-found error, and [get_product]
    does the same. *)
Theorem get_missing_is_empty_success db id :
  (users db !! id = None -> get_user id db = (Response (JObj []) 200, db)) /\
  (products db !! id = None -> get_product id db = (Response (JObj []) 200, db)).
Proof.
  unfold get_user, get_product. split; intros ->; done.
Qed.

(** ** Orders *)

(** C1: a validated order whose [user_id] has no row in [users] is answered
    with status 400 and the message "Invalid user_id", and the store is left
    as it was, so no order is persisted. *)
Theorem create_order_invalid_user now request_json order_data user_id db :
  load OrderSchema request_json = inr order_data ->
  getitem order_data "user_id" = Some (VInt user_id) ->
  users db !! user_id = None ->
  create_order now request_json db = (Response (message "Invalid user_id") 400, db).
Proof.
  intros Hl Hu Hn. unfold create_order. by rewrite Hl, Hu, Hn.
Qed.

(** A successful [add_prod_to_order] commits one insert into
    [order_product]. *)
Lemma add_prod_to_order_inserts db order_id product_id order product :
  orders db !! order_id = Some order ->
  products db !! product_id = Some product ->
  (order_id, product_id) ∉ order_product db ->
  exists db',
    insert_order_product order_id product_id db = inr db' /\
    add_prod_to_order order_id product_id db =
      (Response (order_schema_dump (Some (order_id, order))) 200, db').
Proof.
  intros Ho Hp Hnin. unfold add_prod_to_order. rewrite Ho, Hp.
  rewrite bool_decide_eq_false_2
    by (rewrite elem_of_Order_products; intros [? _]; done).
  unfold insert_order_product.
  rewrite bool_decide_eq_false_2 by done. rewrite Ho, Hp. eauto.
Qed.

(** C10: adding a product to an order that does not have it yet appends the
    single pair to the association table and changes nothing else: the three
    entity tables and their counters are the same, hence the order's
    [user_id] and [order_date], the product's fields and all users, and
    every other order keeps its products. *)
Theorem add_prod_to_order_frame db order_id product_id order product :
  orders db !! order_id = Some order ->
  products db !! product_id = Some product ->
  (order_id, product_id) ∉ order_product db ->
  exists db',
    add_prod_to_order order_id product_id db =
      (Response (order_schema_dump (Some (order_id, order))) 200, db') /\
    order_product db' = order_product db ++ [(order_id, product_id)] /\
    orders db' = orders db /\
    products db' = products db /\
    users db' = users db /\
    (users_next_id db', orders_next_id db', products_next_id db') =
      (users_next_id db, orders_next_id db, products_next_id db) /\
    forall other, other <> order_id ->
      Order_products db' other = Order_products db other.
Proof.
  intros Ho Hp Hnin.
  destruct (add_prod_to_order_inserts db order_id product_id order product)
    as (db' & Hins & Hadd); [done..|].
  exists db'. split; [done|].
  revert Hins. unfold insert_order_product.
  rewrite bool_decide_eq_false_2 by done. rewrite Ho, Hp.
  intros [= <-]. simpl. repeat split.
  intros other Hne. unfold Order_products. simpl.
  rewrite omap_app. simpl.
  rewrite bool_decide_eq_false_2 by congruence. by rewrite app_nil_r.
Qed.

Lemma delete_after_insert_order_product db db1 order_id product_id :
  (order_id, product_id) ∉ order_product db ->
  insert_order_product order_id product_id db = inr db1 ->
  delete_order_product order_id product_id db1 = db.
Proof.
  unfold insert_order_product, delete_order_product. intros Hnin.
  rewrite bool_decide_eq_false_2 by done.
  destruct (orders db !! order_id); [|done].
  destruct (products db !! product_id); [|done].
  intros [= <-]. destruct db. simpl in *. f_equal.
  rewrite filter_app, filter_ne_id by done.
  rewrite filter_cons_False by (intros Hne; by apply Hne).
  by rewrite filter_nil, app_nil_r.
Qed.

(** C7: adding a product to an order and removing it again gives back the
    store as it was, so the order's product list does not show the product,
    and one more removal is answered with 404 "Product not found in the
    order"; a removal naming an absent order or an absent product is refused
    (status 400, "Invalid order ID" / "Invalid product ID") and changes
    nothing. *)
Theorem add_then_remove_restores db order_id product_id :
  (orders db !! order_id = None ->
   remove_prod_from_order order_id product_id db =
     (Response (message "Invalid order ID") 400, db)) /\
  (is_Some (orders db !! order_id) -> products db !! product_id = None ->
   remove_prod_from_order order_id product_id db =
     (Response (message "Invalid product ID") 400, db)) /\
  (is_Some (orders db !! order_id) -> is_Some (products db !! product_id) ->
   (order_id, product_id) ∉ order_product db ->
   exists body db1,
     add_prod_to_order order_id product_id db = (Response body 200, db1) /\
     remove_prod_from_order order_id product_id db1 =
       (Response
          (message ("Product " +:+ pretty product_id +:+ " removed from order "
                    +:+ pretty order_id)) 200, db) /\
     (product_id ∉ (Order_products db order_id).*1) /\
     ((get_products_for_order order_id db).1 =
        Response (message "No products found for this order") 404 \/
      exists ps,
        (get_products_for_order order_id db).1 = Response (products_schema_dump ps) 200 /\
        product_id ∉ ps.*1) /\
     remove_prod_from_order order_id product_id db =
       (Response (message "Product not found in the order") 404, db)).
Proof.
  split; [|split].
  - intros Ho. unfold remove_prod_from_order. by rewrite Ho.
  - intros [order Ho] Hp. unfold remove_prod_from_order. by rewrite Ho, Hp.
  - intros [order Ho] [product Hp] Hnin.
    assert (product_id ∉ (Order_products db order_id).*1) as Hnot
      by (rewrite elem_of_Order_products; intros [? _]; done).
    destruct (add_prod_to_order_inserts db order_id product_id order product)
      as (db1 & Hins & Hadd); [done..|].
    exists (order_schema_dump (Some (order_id, order))), db1.
    split; [done|]. split; [|split; [done|split]].
    + pose proof (delete_after_insert_order_product _ _ _ _ Hnin Hins) as Hdel.
      revert Hins Hdel. unfold insert_order_product.
      rewrite bool_decide_eq_false_2 by done. rewrite Ho, Hp.
      intros [= <-] Hdel.
      unfold remove_prod_from_order. cbn [orders products]. rewrite Ho, Hp.
      rewrite bool_decide_eq_true_2; [by rewrite Hdel|].
      rewrite elem_of_Order_products. cbn [order_product products]. rewrite Hp.
      split; [|eauto]. apply elem_of_app. right. by left.
    + unfold get_products_for_order. rewrite Ho.
      destruct (Order_products db order_id) as [|p ps] eqn:Hps; [by left|].
      right. exists (p :: ps). done.
    + unfold remove_prod_from_order. rewrite Ho, Hp.
      by rewrite bool_decide_eq_false_2.
Qed.

(** C2: in the store reached by any sequence of requests, adding a product
    to an order that already has it (both then exist, by the foreign keys)
    is answered with status 400 "Product already exists in the order" and
    leaves the store as it was; the association table holds no pair twice,
    and the order's product list shows the product exactly once. *)
Theorem add_prod_to_order_twice rs order_id product_id :
  (order_id, product_id) ∈ order_product (serve rs create_all) ->
  add_prod_to_order order_id product_id (serve rs create_all) =
    (Response (message "Product already exists in the order") 400,
     serve rs create_all) /\
  NoDup (order_product (serve rs create_all)) /\
  exists ps,
    get_products_for_order order_id (serve rs create_all) =
      (Response (products_schema_dump ps) 200, serve rs create_all) /\
    length (filter (fun p : Z * Product.row => p.1 = product_id) ps) = 1%nat.
Proof.
  pose proof (serve_integrity rs create_all association_integrity_create_all)
    as [Hnd Hfk].
  generalize dependent (serve rs create_all). intros db Hnd Hfk Hin.
  destruct (Hfk _ _ Hin) as [[order Ho] [product Hp]].
  assert (product_id ∈ (Order_products db order_id).*1) as Hmem
    by (rewrite elem_of_Order_products, Hp; eauto).
  split; [|split; [done|]].
  - unfold add_prod_to_order. rewrite Ho, Hp. by rewrite bool_decide_eq_true_2.
  - exists (Order_products db order_id). split.
    + unfold get_products_for_order. rewrite Ho.
      destruct (Order_products db order_id); [by apply elem_of_nil in Hmem|done].
    + rewrite Order_products_count by eauto. by apply NoDup_count_one.
Qed.

(** ** Products *)

Lemma remove_prod_from_order_tables db order_id product_id :
  association_integrity db ->
  is_Some (products db !! product_id) ->
  order_product (remove_prod_from_order order_id product_id db).2 =
    filter (fun op => op <> (order_id, product_id)) (order_product db) /\
  products (remove_prod_from_order order_id product_id db).2 = products db /\
  orders (remove_prod_from_order order_id product_id db).2 = orders db.
Proof.
  intros [_ Hfk] [product Hp]. unfold remove_prod_from_order. rewrite Hp.
  destruct (orders db !! order_id) as [order|] eqn:Ho; simpl.
  - case_bool_decide as Hin; simpl; [done|]. split; [|done].
    rewrite filter_ne_id; [done|]. intros Hrow. apply Hin.
    rewrite elem_of_Order_products, Hp. eauto.
  - split; [|done]. rewrite filter_ne_id; [done|]. intros Hrow.
    destruct (Hfk _ _ Hrow) as [[? Hsome] _]. congruence.
Qed.

(** Removing the product from each order of [order_ids] in turn. *)
Lemma serve_remove_prod_from_orders db product_id order_ids :
  association_integrity db ->
  is_Some (products db !! product_id) ->
  products
    (serve ((fun o => DELETE_orders_remove_product o product_id) <$> order_ids) db) =
    products db /\
  forall o,
    (o, product_id) ∈
      order_product
        (serve ((fun o => DELETE_orders_remove_product o product_id) <$> order_ids) db) ->
    (o, product_id) ∈ order_product db /\ o ∉ order_ids.
Proof.
  revert db. induction order_ids as [|o' os IH]; intros db Hi Hp.
  { simpl. split; [done|]. intros o Hin. split; [done|]. apply not_elem_of_nil. }
  cbn [fmap list_fmap serve fold_left route].
  destruct (remove_prod_from_order_tables db o' product_id Hi Hp) as (Hop & Hpr & _).
  pose proof (route_integrity (DELETE_orders_remove_product o' product_id) db Hi) as Hi'.
  cbn [route] in Hi'.
  destruct (IH (remove_prod_from_order o' product_id db).2 Hi') as [IHp IHin].
  { by rewrite Hpr. }
  split; [by rewrite <- Hpr|].
  intros o Hin. apply IHin in Hin as [Hin Hnot].
  rewrite Hop in Hin. apply list_elem_of_filter in Hin as [Hne Hin].
  split; [done|]. apply not_elem_of_cons. split; [congruence|done].
Qed.

Lemma delete_product_unreferenced db id :
  is_Some (products db !! id) ->
  (forall order_id, (order_id, id) ∉ order_product db) ->
  exists db',
    delete_product id db =
      (Response (JArr [message ("Successfully deleted product " +:+ pretty id); JInt 200])
         200, db') /\
    products db' = delete id (products db) /\
    users db' = users db /\ orders db' = orders db /\
    order_product db' = order_product db.
Proof.
  intros [product Hp] Hno. unfold delete_product. rewrite Hp.
  rewrite Product_orders_nil by done. unfold delete_product_row.
  rewrite bool_decide_eq_false_2.
  - eexists. split; [reflexivity|]. done.
  - intros ([o i] & Hin & Hi)%Exists_exists. simpl in Hi. subst i.
    by apply (Hno o).
Qed.

(** C3: in the store reached by any sequence of requests, [delete_product]
    answers 404 "Product not found" on an absent id; answers 400 "Cannot
    delete product because it is associated with orders" and leaves the
    store as it was when some association row refers to the product (which
    then exists, by the foreign key);
    deletes the row otherwise; and after the product has been removed from
    every order that had it, the delete goes through. *)
Theorem delete_product_guard rs db id :
  db = serve rs create_all ->
  (products db !! id = None ->
   delete_product id db = (Response (message "Product not found") 404, db)) /\
  ((exists order_id, (order_id, id) ∈ order_product db) ->
   delete_product id db =
     (Response (message "Cannot delete product because it is associated with orders")
        400, db)) /\
  (is_Some (products db !! id) ->
   (forall order_id, (order_id, id) ∉ order_product db) ->
   exists db',
     delete_product id db =
       (Response (JArr [message ("Successfully deleted product " +:+ pretty id); JInt 200])
          200, db') /\
     products db' = delete id (products db) /\
     users db' = users db /\ orders db' = orders db /\
     order_product db' = order_product db) /\
  (is_Some (products db !! id) ->
   exists db',
     delete_product id
       (serve ((fun o => DELETE_orders_remove_product o id) <$>
                 (filter (fun op : Z * Z => op.2 = id) (order_product db)).*1) db) =
       (Response (JArr [message ("Successfully deleted product " +:+ pretty id); JInt 200])
          200, db') /\
     products db' !! id = None).
Proof.
  intros ->.
  pose proof (serve_integrity rs create_all association_integrity_create_all) as Hi.
  generalize dependent (serve rs create_all). intros db Hi.
  split; [|split; [|split]].
  - intros Hp. unfold delete_product. by rewrite Hp.
  - intros [o Hin]. destruct Hi as [_ Hfk].
    destruct (Hfk _ _ Hin) as [Ho [product Hp]].
    unfold delete_product. rewrite Hp.
    by destruct (Product_orders_cons db o id Hin Ho) as (x & xs & ->).
  - apply delete_product_unreferenced.
  - intros Hp.
    destruct (serve_remove_prod_from_orders db id
                (filter (fun op : Z * Z => op.2 = id) (order_product db)).*1 Hi Hp)
      as [Hpr Hrows].
    edestruct delete_product_unreferenced as (db' & Hdel & Hpd & _).
    + by rewrite Hpr.
    + intros o Hin. apply Hrows in Hin as [Hin Hnot]. apply Hnot.
      apply list_elem_of_fmap. exists (o, id). split; [done|].
      by apply list_elem_of_filter.
    + exists db'. split; [exact Hdel|]. rewrite Hpd. apply lookup_delete_eq.
Qed.



(** ** Users *)

Lemma email_taken_after_create_user request_json user_data e db :
  load UserSchema request_json = inr user_data ->
  getitem user_data "email" = Some (VStr e) ->
  email_taken (create_user request_json db).2 e None.
Proof.
  intros Hl He.
  destruct (load_UserSchema_inr _ _ Hl) as (name & address & email & Hn & Ha & He').
  rewrite He in He'. injection He' as <-.
  unfold create_user. rewrite Hl, Hn, Ha, He. unfold insert_user. simpl.
  case_bool_decide as Htaken; simpl; [done|].
  exists (users_next_id db),
    {| User.name := name; User.address := address; User.email := e |}.
  split; [apply lookup_insert_eq|]. done.
Qed.

(** C4 (as the code has it): of two [create_user] calls with validated
    bodies carrying the same email, the second is not answered with a
    structured error: the unique constraint on [users.email] fails the
    commit and the [IntegrityError] leaves the view function uncaught. The
    store is left as the first call made it: no second row is stored, and
    when the email was free the first user's row is there with the fields
    of the first call. *)
Theorem create_user_same_email db request1 request2 user_data1 user_data2
    name address e :
  load UserSchema request1 = inr user_data1 ->
  getitem user_data1 "name" = Some (VStr name) ->
  getitem user_data1 "address" = Some (VStr address) ->
  getitem user_data1 "email" = Some (VStr e) ->
  load UserSchema request2 = inr user_data2 ->
  getitem user_data2 "email" = Some (VStr e) ->
  create_user request2 (create_user request1 db).2 =
    (Raised IntegrityError, (create_user request1 db).2) /\
  (~ email_taken db e None ->
   (create_user request1 db).1 =
     Response
       (user_schema_dump
          (Some (users_next_id db,
                 {| User.name := name; User.address := address; User.email := e |})))
       201 /\
   users (create_user request1 db).2 !! users_next_id db =
     Some {| User.name := name; User.address := address; User.email := e |}).
Proof.
  intros Hl1 Hn1 Ha1 He1 Hl2 He2. split.
  - pose proof (email_taken_after_create_user _ _ _ db Hl1 He1) as Htaken.
    generalize dependent (create_user request1 db).2. intros db1 Htaken.
    destruct (load_UserSchema_inr _ _ Hl2) as (name2 & address2 & email2 & Hn & Ha & He').
    rewrite He2 in He'. injection He' as <-.
    unfold create_user. rewrite Hl2, Hn, Ha, He2. unfold insert_user. simpl.
    by rewrite bool_decide_eq_true_2.
  - intros Hfree. unfold create_user. rewrite Hl1, Hn1, Ha1, He1.
    unfold insert_user. simpl. rewrite bool_decide_eq_false_2 by done.
    simpl. split; [done|]. apply lookup_insert_eq.
Qed.

(** C6 (as the code has it): [update_user] answers 400 "Invalid user id"
    when the id has no row; otherwise a validated body replaces the row's
    name, address and email in full. The view function itself does not
    compare the email with other users: when another user already has it,
    the unique constraint fails the commit, the [IntegrityError] is not
    caught, and the store is left as it was. *)
Theorem update_user_replaces db id request_json user_data name address email :
  load UserSchema request_json = inr user_data ->
  getitem user_data "name" = Some (VStr name) ->
  getitem user_data "address" = Some (VStr address) ->
  getitem user_data "email" = Some (VStr email) ->
  (users db !! id = None ->
   update_user id request_json db = (Response (message "Invalid user id") 400, db)) /\
  (is_Some (users db !! id) -> ~ email_taken db email (Some id) ->
   exists db',
     update_user id request_json db =
       (Response
          (user_schema_dump
             (Some (id, {| User.name := name; User.address := address;
                           User.email := email |}))) 200, db') /\
     users db' =
       <[id := {| User.name := name; User.address := address; User.email := email |}]>
         (users db) /\
     orders db' = orders db /\ products db' = products db /\
     order_product db' = order_product db) /\
  (is_Some (users db !! id) -> email_taken db email (Some id) ->
   update_user id request_json db = (Raised IntegrityError, db)).
Proof.
  intros Hl Hn Ha He. split; [|split].
  - intros Hu. unfold update_user. by rewrite Hu.
  - intros [u Hu] Hfree. unfold update_user.
    rewrite Hu, Hl, Hn, Ha, He. unfold update_user_row. simpl.
    rewrite bool_decide_eq_false_2 by done.
    eexists. split; [reflexivity|]. done.
  - intros [u Hu] Htaken. unfold update_user.
    rewrite Hu, Hl, Hn, Ha, He. unfold update_user_row. simpl.
    by rewrite bool_decide_eq_true_2.
Qed.

(** ** Unknown fields *)

Lemma load_RAISE_unknown S kvs k v :
  unknown S = RAISE ->
  (k, v) ∈ kvs ->
  k ∉ (fields S).*1 ->
  exists errors,
    load S (JObj kvs) = inl errors /\ (k, ["Unknown field."]) ∈ errors.
Proof.
  intros HS Hin Hk. unfold load. rewrite HS.
  destruct (load_fields (fields S) kvs) as [errors ret_d].
  assert ((k, ["Unknown field."]) ∈
          errors ++ ((fun kv : string * json => (kv.1, ["Unknown field."])) <$>
                       unknown_entries S kvs)) as Hmem.
  { apply elem_of_app. right. apply list_elem_of_fmap. exists (k, v).
    split; [done|]. unfold unknown_entries. by apply list_elem_of_filter. }
  destruct (errors ++ _) as [|e es] eqn:E; [by apply elem_of_nil in Hmem|].
  eauto.
Qed.

(** C8 (as the code has it): none of the three schemas sets [unknown], so
    [load] raises on unknown fields. For every input mapping that holds a
    key the schema does not declare, validation fails and reports that key
    with "Unknown field.", whatever the declared fields hold. *)
Theorem unknown_field_rejected S kvs k v :
  S ∈ [UserSchema; OrderSchema; ProductSchema] ->
  (k, v) ∈ kvs ->
  k ∉ (fields S).*1 ->
  exists errors,
    load S (JObj kvs) = inl errors /\ (k, ["Unknown field."]) ∈ errors.
Proof.
  intros HS. apply load_RAISE_unknown.
  repeat (apply elem_of_cons in HS as [->|HS]; [reflexivity|]).
  by apply elem_of_nil in HS.
Qed.

(** ** What a view function can raise *)

Ltac unfold_views :=
  unfold create_user, get_users, get_user, update_user, delete_user,
    create_order, get_orders, get_products_for_order, add_prod_to_order,
    remove_prod_from_order, create_product, get_products, get_product,
    update_product, delete_product.

(** The subscripts on a loaded dictionary always find their key: no view
    function raises [KeyError]. *)
Lemma route_no_KeyError r db e :
  (route r db).1 = Raised e -> e = IntegrityError.
Proof.
  destruct r; simpl; unfold_views;
    repeat match goal with
           | |- context [load ?S ?j] =>
               let E := fresh "E" in
               destruct (load S j) as [?|d] eqn:E;
               [|first [ destruct (load_UserSchema_inr _ _ E) as (? & ? & ? & -> & -> & ->)
                       | destruct (load_ProductSchema_inr _ _ E) as (? & ? & -> & -> & _)
                       | destruct (load_OrderSchema_inr _ _ E) as (? & ->) ]]
           end;
    unfold insert_user, update_user_row, delete_user_row, insert_order,
      insert_order_product, delete_product_row;
    repeat case_match; simpl; intros; simplify_eq; done.
Qed.

(** On a store whose association table has its keys, only the three view
    functions that write [users] can raise: the guards of the others rule
    out every constraint violation before the commit. *)
Lemma route_Raised_users r db e :
  association_integrity db ->
  (route r db).1 = Raised e ->
  match r with
  | POST_users _ | PUT_users_id _ _ | DELETE_users_id _ => True
  | _ => False
  end.
Proof.
  intros [_ Hfk].
  destruct r; simpl; try done; unfold_views.
  - (* create_order *)
    destruct (load OrderSchema request_json) as [?|d] eqn:E; [done|].
    destruct (load_OrderSchema_inr _ _ E) as (user_id & ->).
    unfold insert_order. simpl.
    destruct (users db !! user_id) eqn:Hu; [|done]. done.
  - repeat case_match; done.
  - repeat case_match; done.
  - (* add_prod_to_order *)
    destruct (orders db !! order_id) eqn:Ho; [|done].
    destruct (products db !! product_id) eqn:Hp; [|done].
    case_bool_decide as Hin; [done|].
    unfold insert_order_product. rewrite Ho, Hp.
    rewrite bool_decide_eq_false_2; [done|].
    intros Hrow. apply Hin. rewrite elem_of_Order_products, Hp. eauto.
  - repeat case_match; done.
  - (* create_product *)
    destruct (load ProductSchema request_json) as [?|d] eqn:E; [done|].
    destruct (load_ProductSchema_inr _ _ E) as (? & ? & -> & -> & _). done.
  - (* update_product *)
    destruct (products db !! id); [|done].
    destruct (load ProductSchema request_json) as [?|d] eqn:E; [done|].
    destruct (load_ProductSchema_inr _ _ E) as (? & ? & -> & -> & _). done.
  - (* delete_product *)
    destruct (products db !! id) eqn:Hp; [|done].
    destruct (Product_orders db id) eqn:Hpo; [|done].
    unfold delete_product_row. rewrite bool_decide_eq_false_2; [done|].
    intros ([o i] & Hrow & Hi)%Exists_exists. simpl in Hi. subst i.
    destruct (Product_orders_cons db o id Hrow) as (x & xs & Hx);
      [by eapply Hfk|congruence].
Qed.

(** ** [Meta.unknown = EXCLUDE], had a schema set it *)

Lemma getitem_filter_declared (names : list string) (kvs : list (string * json)) k :
  k ∈ names ->
  getitem (filter (fun kv : string * json => kv.1 ∈ names) kvs) k = getitem kvs k.
Proof.
  intros Hk. induction kvs as [|[k' v] kvs IH]; [done|].
  rewrite filter_cons. cbn [fst]. destruct (decide (k' ∈ names)) as [Hin|Hnin].
  - simpl. by rewrite IH.
  - simpl. rewrite IH. destruct (String.eqb k' k) eqn:Heq; [|done].
    apply String.eqb_eq in Heq. by subst k'.
Qed.

Lemma load_fields_filter_declared (names : list string)
    (fs : list (string * Field)) (kvs : list (string * json)) :
  fs.*1 ⊆ names ->
  load_fields fs (filter (fun kv : string * json => kv.1 ∈ names) kvs) =
  load_fields fs kvs.
Proof.
  induction fs as [|[name f] fs IH]; intros Hsub; [done|].
  cbn [load_fields].
  rewrite IH by (intros x Hx; apply Hsub; by right).
  rewrite getitem_filter_declared by (apply Hsub; by left). done.
Qed.

(** Under [EXCLUDE] the undeclared entries of the input play no part: the
    input loads as its restriction to the declared fields does. *)
Lemma load_EXCLUDE_ignores_unknown S kvs :
  unknown S = EXCLUDE ->
  load S (JObj kvs) =
  load S (JObj (filter (fun kv : string * json => kv.1 ∈ (fields S).*1) kvs)).
Proof.
  intros HS. unfold load. rewrite HS.
  by rewrite load_fields_filter_declared.
Qed.

(** * Further properties of the view functions *)

(** ** What validation lets through *)

Lemma _validate_nil_Length vs s :
  _validate vs (VStr s) = [] ->
  Forall (fun v => match v with Length n => (String.length s <= n)%nat end) vs.
Proof.
  unfold _validate. induction vs as [|[n] vs IH]; intros Hv; [constructor|].
  cbn [map concat run_validator] in Hv.
  case_bool_decide as Hlen; [discriminate|]. constructor; [lia|]. by apply IH.
Qed.

Lemma deserialize_String_Loaded_bound f raw v n :
  kind f = String -> allow_none f = false -> validate f = [Length n] ->
  deserialize f raw = Loaded v ->
  exists s, v = VStr s /\ raw = Some (JStr s) /\ (String.length s <= n)%nat.
Proof.
  intros Hk Hn Hv. unfold deserialize. rewrite Hk, Hn, Hv.
  destruct raw as [j|]; [|destruct (required f); discriminate].
  destruct j; cbn [_deserialize]; try discriminate.
  destruct (_validate [Length n] (VStr s)) eqn:E; [|discriminate].
  intros [= <-]. apply _validate_nil_Length in E.
  apply Forall_cons in E as [Hlen _]. eauto.
Qed.

Ltac field_shape_bound :=
  repeat match goal with
         | E : deserialize _ _ = Skipped |- _ =>
             first [ by (apply deserialize_required_not_Skipped in E)
                   | clear E ]
         | E : deserialize ?f _ = Loaded _ |- _ =>
             first [ eapply deserialize_String_Loaded_bound in E as (? & -> & ? & ?);
                     [|reflexivity..]
                   | apply deserialize_Float_Loaded in E as (? & -> & ?); [|done..]
                   | apply deserialize_Integer_Loaded in E as (? & ->); [|done..]
                   | clear E ]
         end.

Lemma load_UserSchema_fits body d :
  load UserSchema body = inr d ->
  exists name address email,
    getitem d "name" = Some (VStr name) /\
    getitem d "address" = Some (VStr address) /\
    getitem d "email" = Some (VStr email) /\
    fits_user {| User.name := name; User.address := address; User.email := email |}.
Proof.
  intros Hl. destruct body; try discriminate.
  load_cases UserSchema Hl; field_shape_bound; cbn; unfold fits_user; cbn;
    eauto 12.
Qed.

Lemma load_ProductSchema_fits body d :
  load ProductSchema body = inr d ->
  exists product_name price,
    getitem d "product_name" = Some (VStr product_name) /\
    getitem d "price" = Some (VFloat price) /\
    fits_product
      {| Product.product_name := product_name; Product.price := price |}.
Proof.
  intros Hl. destruct body; try discriminate.
  load_cases ProductSchema Hl; field_shape_bound; cbn; unfold fits_product; cbn;
    eauto 12.
Qed.

(** ** One request, one flushed change *)

Lemma route_committed r db : committed db (route r db).2.
Proof.
  destruct r; simpl; unfold_views; try apply committed_nothing.
  - (* create_user *)
    destruct (load UserSchema request_json) as [?|d] eqn:E;
      [apply committed_nothing|].
    destruct (load_UserSchema_fits _ _ E) as (n & a & e & -> & -> & -> & Hfit).
    destruct (insert_user _ db) as [?|[id db']] eqn:Hins;
      [apply committed_nothing|]. simpl. by eapply committed_insert_user.
  - (* update_user *)
    destruct (users db !! id) eqn:Hu; [|apply committed_nothing].
    destruct (load UserSchema request_json) as [?|d] eqn:E;
      [apply committed_nothing|].
    destruct (load_UserSchema_fits _ _ E) as (n & a & e & -> & -> & -> & Hfit).
    destruct (update_user_row id _ db) as [?|db'] eqn:Hup;
      [apply committed_nothing|]. simpl.
    eapply committed_update_user; eauto.
  - (* delete_user *)
    destruct (users db !! id); [|apply committed_nothing].
    destruct (delete_user_row id db) as [?|db'] eqn:Hdel;
      [apply committed_nothing|]. simpl. by eapply committed_delete_user.
  - (* create_order *)
    destruct (load OrderSchema request_json) as [?|d] eqn:E;
      [apply committed_nothing|].
    destruct (load_OrderSchema_inr _ _ E) as (user_id & ->).
    destruct (users db !! user_id); [|apply committed_nothing].
    destruct (insert_order _ db) as [?|[id db']] eqn:Hins;
      [apply committed_nothing|]. simpl. by eapply committed_insert_order.
  - (* get_orders *)
    destruct (filter _ _); apply committed_nothing.
  - (* get_products_for_order *)
    repeat case_match; apply committed_nothing.
  - (* add_prod_to_order *)
    destruct (orders db !! order_id); [|apply committed_nothing].
    destruct (products db !! product_id); [|apply committed_nothing].
    case_bool_decide; [apply committed_nothing|].
    destruct (insert_order_product order_id product_id db) as [?|db'] eqn:Hins;
      [apply committed_nothing|]. simpl. by eapply committed_insert_order_product.
  - (* remove_prod_from_order *)
    destruct (orders db !! order_id); [|apply committed_nothing].
    destruct (products db !! product_id); [|apply committed_nothing].
    case_bool_decide; simpl;
      [apply committed_delete_order_product|apply committed_nothing].
  - (* create_product *)
    destruct (load ProductSchema request_json) as [?|d] eqn:E;
      [apply committed_nothing|].
    destruct (load_ProductSchema_fits _ _ E) as (n & p & -> & -> & Hfit).
    by apply committed_insert_product.
  - (* update_product *)
    destruct (products db !! id) eqn:Hp; [|apply committed_nothing].
    destruct (load ProductSchema request_json) as [?|d] eqn:E;
      [apply committed_nothing|].
    destruct (load_ProductSchema_fits _ _ E) as (n & p & -> & -> & Hfit).
    simpl. apply committed_update_product; eauto.
  - (* delete_product *)
    destruct (products db !! id); [|apply committed_nothing].
    destruct (Product_orders db id); [|apply committed_nothing].
    destruct (delete_product_row id db) as [?|db'] eqn:Hdel;
      [apply committed_nothing|]. simpl. by eapply committed_delete_product.
Qed.

Lemma serve_preserves (P : Database -> Prop) :
  (forall db db', committed db db' -> P db -> P db') ->
  forall rs db, P db -> P (serve rs db).
Proof.
  intros Hstep rs. induction rs as [|r rs IH]; intros db HP; simpl; [done|].
  apply IH. eapply Hstep; [apply route_committed|done].
Qed.

(** Opens a flushed change that succeeded. *)
Ltac open_commit :=
  unfold insert_user, update_user_row, delete_user_row, insert_order,
    insert_order_product, delete_order_product, insert_product,
    update_product_row, delete_product_row in *;
  repeat case_bool_decide; repeat case_match; simplify_eq; simpl in *.

Ltac committed_cases Hc :=
  destruct Hc as
    [ | u id db' Hfit Hins | id u db' Hsome Hfit Hup | id db' Hdel
      | o id db' Hins | order_id product_id db' Hins | order_id product_id
      | p Hfit | id p Hsome Hfit | id db' Hdel ].

Lemma committed_emails_unique db db' :
  committed db db' -> emails_unique db -> emails_unique db'.
Proof.
  intros Hc Hu. committed_cases Hc; try (open_commit; exact Hu).
  - (* insert_user *)
    open_commit. intros id1 id2 u1 u2 Hl1 Hl2 He. simpl in *.
    apply lookup_insert_Some in Hl1 as [[<- <-]|[Hne1 Hl1]];
      apply lookup_insert_Some in Hl2 as [[<- <-]|[Hne2 Hl2]]; try done.
    + exfalso. match goal with Hn : ~ email_taken _ _ _ |- _ => apply Hn end.
      exists id2, u2. eauto.
    + exfalso. match goal with Hn : ~ email_taken _ _ _ |- _ => apply Hn end.
      exists id1, u1. eauto.
    + by eapply Hu.
  - (* update_user_row *)
    open_commit. intros id1 id2 u1 u2 Hl1 Hl2 He. simpl in *.
    apply lookup_insert_Some in Hl1 as [[<- <-]|[Hne1 Hl1]];
      apply lookup_insert_Some in Hl2 as [[<- <-]|[Hne2 Hl2]]; try done.
    + exfalso. match goal with Hn : ~ email_taken _ _ _ |- _ => apply Hn end.
      exists id2, u2. split; [done|]. split; [done|congruence].
    + exfalso. match goal with Hn : ~ email_taken _ _ _ |- _ => apply Hn end.
      exists id1, u1. split; [done|]. split; [done|congruence].
    + by eapply Hu.
  - (* delete_user_row *)
    open_commit. intros id1 id2 u1 u2 Hl1 Hl2 He. simpl in *.
    apply lookup_delete_Some in Hl1 as [_ Hl1].
    apply lookup_delete_Some in Hl2 as [_ Hl2]. by eapply Hu.
Qed.

Lemma committed_orders_have_users db db' :
  committed db db' -> orders_have_users db -> orders_have_users db'.
Proof.
  intros Hc Hu. committed_cases Hc; try (open_commit; exact Hu).
  - open_commit. intros k o Ho. simpl in *. apply lookup_insert_is_Some.
    destruct (decide (users_next_id db = Order.user_id o)); [by left|].
    right. split; [done|]. by eapply Hu.
  - open_commit. intros k o Ho. simpl in *. apply lookup_insert_is_Some.
    destruct (decide (id = Order.user_id o)); [by left|].
    right. split; [done|]. by eapply Hu.
  - open_commit. intros k o Ho. simpl in *. apply lookup_delete_is_Some. split.
    + intros ->. match goal with Hn : ~ map_Exists _ _ |- _ => apply Hn end.
      by exists k, o.
    + by eapply Hu.
  - open_commit. intros k o' Ho. simpl in *.
    apply lookup_insert_Some in Ho as [[<- <-]|[_ Ho]]; [eauto|by eapply Hu].
Qed.

Lemma committed_ids_assigned db db' :
  committed db db' -> ids_assigned db -> ids_assigned db'.
Proof.
  intros Hc ([Hu1 Hu] & [Ho1 Ho] & [Hp1 Hp]).
  committed_cases Hc; open_commit; repeat split; simpl in *.
  all: repeat match goal with
         | Hk : is_Some (<[_:=_]> _ !! _) |- _ =>
             apply lookup_insert_is_Some in Hk as [<-|[_ Hk]]
         | Hk : is_Some (delete _ _ !! _) |- _ =>
             apply lookup_delete_is_Some in Hk as [_ Hk]
         end.
  all: repeat match goal with
         | Hk : is_Some (_ !! _) |- _ =>
             first [ apply Hu in Hk | apply Ho in Hk | apply Hp in Hk ]
         end.
  all: lia.
Qed.

Lemma committed_rows_fit_columns db db' :
  committed db db' -> rows_fit_columns db -> rows_fit_columns db'.
Proof.
  intros Hc [Hu Hp].
  committed_cases Hc; try (open_commit; by split); open_commit; split; try done.
  - intros k u'; simpl; intros [[<- <-]|[_ Hl]]%lookup_insert_Some; [exact Hfit|by eapply Hu].
  - intros k u'; simpl; intros [[<- <-]|[_ Hl]]%lookup_insert_Some; [exact Hfit|by eapply Hu].
  - intros k u'; simpl; intros [_ Hl]%lookup_delete_Some. by eapply Hu.
  - intros k p'; simpl; intros [[<- <-]|[_ Hl]]%lookup_insert_Some; [exact Hfit|by eapply Hp].
  - intros k p'; simpl; intros [[<- <-]|[_ Hl]]%lookup_insert_Some; [exact Hfit|by eapply Hp].
  - intros k p'; simpl; intros [_ Hl]%lookup_delete_Some. by eapply Hp.
Qed.

(** ** Errors are atomic, and few *)

(** X1: a request that is not answered with status 200 or 201, be it
    refused with an error status or ended by an uncaught exception, leaves
    the store exactly as it was. *)
Theorem failed_request_changes_nothing r db :
  (exists body, (route r db).1 = Response body 200) \/
  (exists body, (route r db).1 = Response body 201) \/
  (route r db).2 = db.
Proof.
  destruct r; simpl; unfold_views;
    repeat match goal with
           | |- context [load ?S ?j] => destruct (load S j)
           | |- context [match ?x with _ => _ end] =>
               lazymatch x with
               | context [match _ with _ => _ end] => fail
               | _ => destruct x
               end
           | |- context [if ?b then _ else _] => destruct b
           end;
    simpl; eauto.
Qed.

(** X2: the guards of the view functions rule out every violation of a
    declared constraint before the commit, except in the three that write
    [users]: in a store reached by any sequence of requests, an
    [IntegrityError] escapes only from [create_user], [update_user] or
    [delete_user]. *)
Theorem integrity_error_only_from_user_writes rs r :
  (route r (serve rs create_all)).1 = Raised IntegrityError ->
  writes_users r = true.
Proof.
  intros Hr.
  pose proof (route_Raised_users r _ IntegrityError
                (serve_integrity rs create_all association_integrity_create_all) Hr)
    as Hw.
  by destruct r.
Qed.

(** ** Invariants of every reachable store *)

Lemma create_all_ids_assigned : ids_assigned create_all.
Proof.
  unfold ids_assigned. simpl. repeat split; try lia.
  all: match goal with
       | Hk : is_Some _ |- _ => destruct Hk as [? Hk]; by rewrite lookup_empty in Hk
       end.
Qed.

(** X3: in a store reached by any sequence of requests, no two users have
    the same email. *)
Theorem reachable_emails_unique rs id1 id2 u1 u2 :
  users (serve rs create_all) !! id1 = Some u1 ->
  users (serve rs create_all) !! id2 = Some u2 ->
  User.email u1 = User.email u2 ->
  id1 = id2.
Proof.
  apply (serve_preserves emails_unique committed_emails_unique rs create_all).
  intros k1 k2 v1 v2 Hk. simpl in Hk. by rewrite lookup_empty in Hk.
Qed.

(** X4: in a store reached by any sequence of requests, every order
    belongs to a user that is still stored: [create_order] refuses an
    unknown [user_id] and a user with orders cannot be deleted. *)
Theorem reachable_orders_have_users rs id o :
  orders (serve rs create_all) !! id = Some o ->
  is_Some (users (serve rs create_all) !! Order.user_id o).
Proof.
  apply (serve_preserves orders_have_users committed_orders_have_users
           rs create_all).
  intros k v Hk. simpl in Hk. by rewrite lookup_empty in Hk.
Qed.

(** X5: in a store reached by any sequence of requests, every stored row
    respects its column bounds: a user's name, address and email have at
    most 50, 150 and 50 characters, a product's name at most 100, and a
    price is never NaN or infinite. *)
Theorem reachable_rows_fit_columns rs :
  (forall id u, users (serve rs create_all) !! id = Some u -> fits_user u) /\
  (forall id p, products (serve rs create_all) !! id = Some p -> fits_product p).
Proof.
  apply (serve_preserves rows_fit_columns committed_rows_fit_columns
           rs create_all).
  split; intros k v Hk; simpl in Hk; by rewrite lookup_empty in Hk.
Qed.

Lemma serve_ids_assigned rs : ids_assigned (serve rs create_all).
Proof.
  apply (serve_preserves ids_assigned committed_ids_assigned rs create_all).
  apply create_all_ids_assigned.
Qed.

(** ** Creating and reading back *)

(** X6: in a store reached by any sequence of requests, [create_user] on a
    validated body whose email is free answers 201 with the new user under
    an id that was not in use, leaves every other user as it was, and
    [get_user] on that id then answers 200 with the same representation. *)
Theorem create_user_then_get_user rs request_json user_data name address email :
  load UserSchema request_json = inr user_data ->
  getitem user_data "name" = Some (VStr name) ->
  getitem user_data "address" = Some (VStr address) ->
  getitem user_data "email" = Some (VStr email) ->
  ~ email_taken (serve rs create_all) email None ->
  exists id db',
    create_user request_json (serve rs create_all) =
      (Response
         (user_schema_dump
            (Some (id, {| User.name := name; User.address := address;
                          User.email := email |}))) 201, db') /\
    users (serve rs create_all) !! id = None /\
    (forall other, other <> id ->
       users db' !! other = users (serve rs create_all) !! other) /\
    get_user id db' =
      (Response
         (user_schema_dump
            (Some (id, {| User.name := name; User.address := address;
                          User.email := email |}))) 200, db').
Proof.
  intros Hl Hn Ha He Hfree.
  pose proof (serve_ids_assigned rs) as ([_ Hu] & _).
  generalize dependent (serve rs create_all). intros db Hfree Hu.
  exists (users_next_id db). unfold create_user. rewrite Hl, Hn, Ha, He.
  unfold insert_user. simpl. rewrite bool_decide_eq_false_2 by done.
  eexists. split; [reflexivity|]. split; [|split].
  - apply eq_None_not_Some. intros Hs%Hu. lia.
  - intros other Hne. simpl. by rewrite lookup_insert_ne.
  - unfold get_user. simpl. by rewrite lookup_insert_eq.
Qed.

(** X7: in a store reached by any sequence of requests, [create_product]
    on a validated body answers 201 with the new product under an id that
    was not in use, leaves every other product and every association as it
    was, and [get_product] on that id then answers 200 with the same
    representation. *)
Theorem create_product_then_get_product rs request_json product_data
    product_name price :
  load ProductSchema request_json = inr product_data ->
  getitem product_data "product_name" = Some (VStr product_name) ->
  getitem product_data "price" = Some (VFloat price) ->
  exists id db',
    create_product request_json (serve rs create_all) =
      (Response
         (product_schema_dump
            (Some (id, {| Product.product_name := product_name;
                          Product.price := price |}))) 201, db') /\
    products (serve rs create_all) !! id = None /\
    (forall other, other <> id ->
       products db' !! other = products (serve rs create_all) !! other) /\
    order_product db' = order_product (serve rs create_all) /\
    get_product id db' =
      (Response
         (product_schema_dump
            (Some (id, {| Product.product_name := product_name;
                          Product.price := price |}))) 200, db').
Proof.
  intros Hl Hn Hp.
  pose proof (serve_ids_assigned rs) as (_ & _ & [_ Hids]).
  generalize dependent (serve rs create_all). intros db Hids.
  exists (products_next_id db). unfold create_product. rewrite Hl, Hn, Hp.
  unfold insert_product. simpl.
  eexists. split; [reflexivity|]. split; [|split; [|split]].
  - apply eq_None_not_Some. intros Hs%Hids. lia.
  - intros other Hne. simpl. by rewrite lookup_insert_ne.
  - done.
  - unfold get_product. simpl. by rewrite lookup_insert_eq.
Qed.

Lemma Order_products_nil db order_id :
  (forall product_id, (order_id, product_id) ∉ order_product db) ->
  Order_products db order_id = [].
Proof.
  unfold Order_products. rewrite sort_by_nil. generalize (order_product db) as l.
  induction l as [|[o i] l IH]; intros Hno; [done|].
  rewrite omap_cons_eq, IH by (intros i' Hin; apply (Hno i'); by right).
  cbn [fst snd]. case_bool_decide as Ho; [|done]. subst o.
  destruct (Hno i). by left.
Qed.

(** X8: in a store reached by any sequence of requests, [create_order] on a
    validated body whose [user_id] is a stored user answers 201 with the new
    order under an id that was not in use; the order carries the body's
    [order_date] when it has one and the time of the insert otherwise; and
    the new order starts without products: [get_products_for_order] on it
    answers 404 "No products found for this order". *)
Theorem create_order_starts_empty rs now request_json order_data user_id user :
  load OrderSchema request_json = inr order_data ->
  getitem order_data "user_id" = Some (VInt user_id) ->
  users (serve rs create_all) !! user_id = Some user ->
  exists id order_date db',
    create_order now request_json (serve rs create_all) =
      (Response
         (order_schema_dump
            (Some (id, {| Order.order_date := order_date;
                          Order.user_id := user_id |}))) 201, db') /\
    (getitem order_data "order_date" = None -> order_date = now) /\
    (forall d, getitem order_data "order_date" = Some (VDateTime d) ->
       order_date = d) /\
    orders (serve rs create_all) !! id = None /\
    orders db' !! id =
      Some {| Order.order_date := order_date; Order.user_id := user_id |} /\
    get_products_for_order id db' =
      (Response (message "No products found for this order") 404, db').
Proof.
  intros Hl Hu Huser.
  pose proof (serve_ids_assigned rs) as (_ & [_ Hids] & _).
  pose proof (serve_integrity rs create_all association_integrity_create_all)
    as [_ Hfk].
  generalize dependent (serve rs create_all). intros db Huser Hids Hfk.
  assert (orders db !! orders_next_id db = None) as Hfresh.
  { apply eq_None_not_Some. intros Hs%Hids. lia. }
  exists (orders_next_id db). unfold create_order. rewrite Hl, Hu, Huser.
  unfold insert_order. cbn [Order.user_id]. rewrite Huser.
  eexists _, _. split; [reflexivity|]. split; [|split; [|split; [|split]]].
  - by intros ->.
  - by intros d ->.
  - done.
  - simpl. by rewrite lookup_insert_eq.
  - unfold get_products_for_order. cbn [orders]. rewrite lookup_insert_eq.
    rewrite Order_products_nil; [done|].
    intros i Hin. cbn [order_product] in Hin.
    destruct (Hfk _ _ Hin) as [[? Hsome] _]. congruence.
Qed.

(** ** Listings *)

(** X9: [get_orders] answers 404 "No orders found for this user." exactly
    when no stored order has that [user_id], whether or not such a user
    exists; otherwise it answers 200 with the orders of that user and no
    others. It never changes the store. *)
Theorem get_orders_lists_user_orders user_id db :
  ((forall id o, orders db !! id = Some o -> Order.user_id o <> user_id) ->
   get_orders user_id db =
     (Response (message "No orders found for this user.") 404, db)) /\
  (forall id o, orders db !! id = Some o -> Order.user_id o = user_id ->
   exists l,
     get_orders user_id db = (Response (orders_schema_dump l) 200, db) /\
     forall id' o',
       (id', o') ∈ l <-> orders db !! id' = Some o' /\ Order.user_id o' = user_id).
Proof.
  unfold get_orders. split.
  - intros Hno.
    destruct (filter _ _) as [|[k o] l] eqn:Hf; [done|].
    assert ((k, o) ∈ filter (fun x : Z * Order.row => Order.user_id x.2 = user_id)
                        (select_all (orders db))) as Hin
      by (rewrite Hf; by left).
    apply list_elem_of_filter in Hin as [Hu Hin].
    apply elem_of_select_all in Hin. by destruct (Hno k o).
  - intros k o Ho Hu.
    assert ((k, o) ∈ filter (fun x : Z * Order.row => Order.user_id x.2 = user_id)
                        (select_all (orders db))) as Hin.
    { apply list_elem_of_filter. split; [done|]. by apply elem_of_select_all. }
    exists (filter (fun x : Z * Order.row => Order.user_id x.2 = user_id)
              (select_all (orders db))).
    split.
    + destruct (filter _ _); [by apply elem_of_nil in Hin|done].
    + intros k' o'. rewrite list_elem_of_filter, elem_of_select_all. simpl.
      tauto.
Qed.

Lemma elem_of_Order_products_row db order_id product_id p :
  (product_id, p) ∈ Order_products db order_id <->
  (order_id, product_id) ∈ order_product db /\ products db !! product_id = Some p.
Proof.
  unfold Order_products. rewrite elem_of_sort_by, list_elem_of_omap. split.
  - intros ([o i] & Hin & Hf). simpl in Hf.
    case_bool_decide as Ho; [|done]. subst o.
    destruct (products db !! i) as [p'|] eqn:Hp; [|done].
    simpl in Hf. injection Hf as <- <-. done.
  - intros [Hin Hp]. exists (order_id, product_id). split; [done|]. simpl.
    rewrite bool_decide_eq_true_2 by done. by rewrite Hp.
Qed.

(** X10: [get_products_for_order] answers 404 "Order not found" on an
    absent order id and 404 "No products found for this order" on an order
    without products; otherwise it answers 200 with exactly the products
    associated with the order, each with its stored fields. It never
    changes the store. *)
Theorem get_products_for_order_lists order_id db :
  (orders db !! order_id = None ->
   get_products_for_order order_id db =
     (Response (message "Order not found") 404, db)) /\
  (is_Some (orders db !! order_id) ->
   (forall product_id,
      (order_id, product_id) ∈ order_product db -> products db !! product_id = None) ->
   get_products_for_order order_id db =
     (Response (message "No products found for this order") 404, db)) /\
  (is_Some (orders db !! order_id) ->
   forall product_id p,
     (order_id, product_id) ∈ order_product db ->
     products db !! product_id = Some p ->
     exists l,
       get_products_for_order order_id db =
         (Response (products_schema_dump l) 200, db) /\
       forall i q,
         (i, q) ∈ l <->
         (order_id, i) ∈ order_product db /\ products db !! i = Some q).
Proof.
  unfold get_products_for_order. split; [|split].
  - by intros ->.
  - intros [o ->] Hno.
    destruct (Order_products db order_id) as [|[i q] l] eqn:Hl; [done|].
    assert ((i, q) ∈ Order_products db order_id) as Hin by (rewrite Hl; by left).
    apply elem_of_Order_products_row in Hin as [Hin Hq].
    rewrite (Hno i Hin) in Hq. done.
  - intros [o ->] i p Hin Hp.
    assert ((i, p) ∈ Order_products db order_id) as Hmem
      by (by apply elem_of_Order_products_row).
    exists (Order_products db order_id). split.
    + destruct (Order_products db order_id); [by apply elem_of_nil in Hmem|done].
    + intros. apply elem_of_Order_products_row.
Qed.

(** ** Deleting a user *)

(** X11: [delete_user] answers 400 "Invalid user id" on an absent id. On a
    user that still has an order nothing is deleted: the commit fails and
    the [IntegrityError] is not caught. Otherwise the row is deleted and
    nothing else changes; the reply has status 200 and a two-element array
    (the message object and the number 200) as its body, and [get_user] on
    the id then answers with the empty object. *)
Theorem delete_user_guard id db :
  (users db !! id = None ->
   delete_user id db = (Response (message "Invalid user id") 400, db)) /\
  (is_Some (users db !! id) ->
   (exists order_id o, orders db !! order_id = Some o /\ Order.user_id o = id) ->
   delete_user id db = (Raised IntegrityError, db)) /\
  (is_Some (users db !! id) ->
   (forall order_id o, orders db !! order_id = Some o -> Order.user_id o <> id) ->
   exists db',
     delete_user id db =
       (Response (JArr [message ("Successfully deleted user " +:+ pretty id); JInt 200])
          200, db') /\
     users db' = delete id (users db) /\
     orders db' = orders db /\ products db' = products db /\
     order_product db' = order_product db /\
     get_user id db' = (Response (JObj []) 200, db')).
Proof.
  unfold delete_user. split; [|split].
  - by intros ->.
  - intros [u ->] (k & o & Ho & Hu). unfold delete_user_row.
    rewrite bool_decide_eq_true_2; [done|]. by exists k, o.
  - intros [u ->] Hno. unfold delete_user_row.
    rewrite bool_decide_eq_false_2.
    + eexists. split; [reflexivity|]. simpl. repeat split.
      unfold get_user. simpl. by rewrite lookup_delete_eq.
    + intros (k & o & Ho & Hu). by eapply Hno.
Qed.

(** ** Associations *)

(** X12: removing a product that an order has answers 200 and deletes that
    pair and nothing else: afterwards the pair is gone, every other pair is
    there as before, the three entity tables are the same, and the order no
    longer lists the product. *)
Theorem remove_prod_from_order_frame db order_id product_id order product :
  orders db !! order_id = Some order ->
  products db !! product_id = Some product ->
  (order_id, product_id) ∈ order_product db ->
  exists db',
    remove_prod_from_order order_id product_id db =
      (Response
         (message ("Product " +:+ pretty product_id +:+ " removed from order "
                   +:+ pretty order_id)) 200, db') /\
    ((order_id, product_id) ∉ order_product db') /\
    (forall pair, pair <> (order_id, product_id) ->
       pair ∈ order_product db' <-> pair ∈ order_product db) /\
    users db' = users db /\ orders db' = orders db /\ products db' = products db /\
    (product_id ∉ (Order_products db' order_id).*1).
Proof.
  intros Ho Hp Hin. unfold remove_prod_from_order. rewrite Ho, Hp.
  rewrite bool_decide_eq_true_2
    by (rewrite elem_of_Order_products, Hp; eauto).
  eexists. split; [reflexivity|]. simpl.
  assert ((order_id, product_id) ∉
          filter (fun op => op <> (order_id, product_id)) (order_product db)) as Hgone.
  { intros [Hne _]%list_elem_of_filter. by apply Hne. }
  split; [done|]. split; [|repeat split].
  - intros pair Hne. rewrite list_elem_of_filter. tauto.
  - rewrite elem_of_Order_products. simpl. intros [Hrow _]. done.
Qed.

Lemma length_insert_by {K A} (le : K -> K -> bool) (x : K * A) l :
  length (insert_by le x l) = S (length l).
Proof.
  induction l as [|z l IH]; simpl; [done|].
  destruct (le x.1 z.1); simpl; [done|]. by rewrite IH.
Qed.

Lemma length_sort_by {K A} (le : K -> K -> bool) (l : list (K * A)) :
  length (sort_by le l) = length l.
Proof.
  unfold sort_by. induction l as [|x l IH]; simpl; [done|].
  by rewrite length_insert_by, IH.
Qed.

(** X13: after a product is added to an order that did not have it, the
    order's listing is answered with status 200 and holds the order's
    former products and that product with its stored fields, nothing else;
    it is one entry longer than before. *)
Theorem add_prod_to_order_then_listed db order_id product_id order product :
  orders db !! order_id = Some order ->
  products db !! product_id = Some product ->
  (order_id, product_id) ∉ order_product db ->
  exists body db' l,
    add_prod_to_order order_id product_id db = (Response body 200, db') /\
    get_products_for_order order_id db' =
      (Response (products_schema_dump l) 200, db') /\
    (forall i q,
       (i, q) ∈ l <->
       (i, q) ∈ Order_products db order_id \/ (i, q) = (product_id, product)) /\
    length l = S (length (Order_products db order_id)).
Proof.
  intros Ho Hp Hnin.
  destruct (add_prod_to_order_inserts db order_id product_id order product)
    as (db' & Hins & Hadd); [done..|].
  exists (order_schema_dump (Some (order_id, order))), db',
    (Order_products db' order_id).
  split; [done|].
  revert Hins. unfold insert_order_product.
  rewrite bool_decide_eq_false_2 by done. rewrite Ho, Hp. intros [= <-].
  assert (forall i q,
            (i, q) ∈ Order_products
              {| users := users db; users_next_id := users_next_id db;
                 orders := orders db; orders_next_id := orders_next_id db;
                 products := products db; products_next_id := products_next_id db;
                 order_product := order_product db ++ [(order_id, product_id)] |}
              order_id <->
            (i, q) ∈ Order_products db order_id \/ (i, q) = (product_id, product))
    as Hmem.
  { intros i q. rewrite !elem_of_Order_products_row. cbn [order_product products].
    rewrite elem_of_app, list_elem_of_singleton. split.
    - intros [[Hin|[= <-]] Hq]; [by left|]. right. congruence.
    - intros [[Hin Hq]|[= -> ->]]; [by auto|]. split; [by right|done]. }
  split; [|split; [exact Hmem|]].
  - unfold get_products_for_order. cbn [orders]. rewrite Ho.
    pose proof (proj2 (Hmem product_id product) (or_intror eq_refl)) as Hin.
    destruct (Order_products _ order_id) as [|x xs];
      [by apply elem_of_nil in Hin|done].
  - unfold Order_products. rewrite !length_sort_by. cbn [order_product products].
    rewrite omap_app, length_app. cbn.
    rewrite bool_decide_eq_true_2 by done. rewrite Hp. simpl. lia.
Qed.

(** X14: [update_product] on a stored product and a validated body
    replaces that product's name and price and nothing else; the change
    shows in every order that has the product: each order lists the same
    products as before, with the updated one carrying its new fields. *)
Theorem update_product_shows_in_orders db id request_json product_data
    product_name price :
  is_Some (products db !! id) ->
  load ProductSchema request_json = inr product_data ->
  getitem product_data "product_name" = Some (VStr product_name) ->
  getitem product_data "price" = Some (VFloat price) ->
  exists db',
    update_product id request_json db =
      (Response
         (product_schema_dump
            (Some (id, {| Product.product_name := product_name;
                          Product.price := price |}))) 200, db') /\
    (forall other, other <> id -> products db' !! other = products db !! other) /\
    users db' = users db /\ orders db' = orders db /\
    order_product db' = order_product db /\
    forall order_id,
      Order_products db' order_id =
      (fun ip : Z * Product.row =>
         if bool_decide (ip.1 = id)
         then (id, {| Product.product_name := product_name; Product.price := price |})
         else ip) <$> Order_products db order_id.
Proof.
  intros [old Hold] Hl Hn Hp. unfold update_product. rewrite Hold, Hl, Hn, Hp.
  eexists. split; [reflexivity|]. simpl. split; [|repeat split].
  - intros other Hne. by rewrite lookup_insert_ne.
  - intros order_id. unfold Order_products. simpl.
    rewrite fmap_sort_by by (intros [i q]; simpl; by case_bool_decide).
    f_equal. generalize (order_product db) as l.
    induction l as [|[o i] l IH]; [done|].
    rewrite !omap_cons_eq, IH. cbn [fst snd].
    case_bool_decide as Ho; [|done].
    destruct (decide (i = id)) as [->|Hne].
    + rewrite lookup_insert_eq, Hold. simpl.
      by rewrite bool_decide_eq_true_2.
    + rewrite lookup_insert_ne by done.
      destruct (products db !! i); simpl; [|done].
      by rewrite bool_decide_eq_false_2.
Qed.

(** ** What validation refuses, and what it lets through *)

Lemma load_fields_Invalid fs data name f reasons :
  (name, f) ∈ fs ->
  deserialize f (getitem data name) = Invalid reasons ->
  (name, reasons) ∈ (load_fields fs data).1.
Proof.
  intros Hin Hd. induction fs as [|[name' f'] fs IH];
    [by apply elem_of_nil in Hin|].
  cbn [load_fields]. destruct (load_fields fs data) as [errors ret_d].
  apply elem_of_cons in Hin as [[= <- <-]|Hin].
  - rewrite Hd. by left.
  - specialize (IH Hin). simpl in IH.
    destruct (deserialize f' _); simpl; [done|done|by right].
Qed.

(** A field that does not deserialize fails the whole load, with its
    reasons reported under its name. *)
Lemma load_Invalid_field S kvs name f reasons :
  (name, f) ∈ fields S ->
  deserialize f (getitem kvs name) = Invalid reasons ->
  exists errors, load S (JObj kvs) = inl errors /\ (name, reasons) ∈ errors.
Proof.
  intros Hin Hd. pose proof (load_fields_Invalid _ kvs _ _ _ Hin Hd) as Hmem.
  unfold load. destruct (load_fields (fields S) kvs) as [errors ret_d].
  simpl in Hmem. destruct (unknown S).
  - assert ((name, reasons) ∈
            errors ++ ((fun kv : string * json => (kv.1, ["Unknown field."])) <$>
                         unknown_entries S kvs)) as Hmem'
      by (apply elem_of_app; by left).
    destruct (errors ++ _) as [|e es] eqn:E; [by apply elem_of_nil in Hmem'|].
    eauto.
  - destruct errors as [|e es]; [by apply elem_of_nil in Hmem|]. eauto.
  - destruct errors as [|e es]; [by apply elem_of_nil in Hmem|]. eauto.
Qed.

(** The required fields of the three schemas. *)
Lemma required_fields_declared S name :
  (S, name) ∈ [(UserSchema, "name"); (UserSchema, "address"); (UserSchema, "email");
               (OrderSchema, "user_id");
               (ProductSchema, "product_name"); (ProductSchema, "price")] ->
  exists f, (name, f) ∈ fields S /\ required f = true /\ allow_none f = false.
Proof.
  intros Hin.
  repeat (apply elem_of_cons in Hin as [[= -> ->]|Hin];
          [eexists; split; [apply list_elem_of_In; vm_compute; eauto 10|done]|]).
  by apply elem_of_nil in Hin.
Qed.

(** X15: [name], [address] and [email] of a user, [user_id] of an order,
    and [product_name] and [price] of a product are required: a body that
    lacks one of them fails validation with "Missing data for required
    field." under that name, and one that holds [null] for it with "Field
    may not be null.". *)
Theorem required_field_missing_rejected S name kvs :
  (S, name) ∈ [(UserSchema, "name"); (UserSchema, "address"); (UserSchema, "email");
               (OrderSchema, "user_id");
               (ProductSchema, "product_name"); (ProductSchema, "price")] ->
  (getitem kvs name = None ->
   exists errors,
     load S (JObj kvs) = inl errors /\
     (name, ["Missing data for required field."]) ∈ errors) /\
  (getitem kvs name = Some JNull ->
   exists errors,
     load S (JObj kvs) = inl errors /\
     (name, ["Field may not be null."]) ∈ errors).
Proof.
  intros (f & Hin & Hreq & Hnone)%required_fields_declared. split.
  - intros Hg. eapply load_Invalid_field; [done|].
    unfold deserialize. by rewrite Hg, Hreq.
  - intros Hg. eapply load_Invalid_field; [done|].
    unfold deserialize. by rewrite Hg, Hnone.
Qed.

(** The string fields of the three schemas, with their column lengths. *)
Lemma string_fields_declared S name n :
  (S, name, n) ∈ [(UserSchema, "name", 50%nat); (UserSchema, "address", 150%nat);
                  (UserSchema, "email", 50%nat);
                  (ProductSchema, "product_name", 100%nat)] ->
  exists f, (name, f) ∈ fields S /\ kind f = String /\ validate f = [Length n].
Proof.
  intros Hin.
  repeat (apply elem_of_cons in Hin as [[= -> -> ->]|Hin];
          [eexists; split; [apply list_elem_of_In; vm_compute; eauto 10|done]|]).
  by apply elem_of_nil in Hin.
Qed.

(** X16: the string fields are bounded by their column lengths and take
    strings only: a [name] or [email] longer than 50 characters, an
    [address] longer than 150 or a [product_name] longer than 100 fails
    validation with "Longer than maximum length n.", and a value that is
    neither a string nor [null] with "Not a valid string.". *)
Theorem string_field_bounds_rejected S name n kvs :
  (S, name, n) ∈ [(UserSchema, "name", 50%nat); (UserSchema, "address", 150%nat);
                  (UserSchema, "email", 50%nat);
                  (ProductSchema, "product_name", 100%nat)] ->
  (forall s, getitem kvs name = Some (JStr s) -> (n < String.length s)%nat ->
   exists errors,
     load S (JObj kvs) = inl errors /\
     (name, ["Longer than maximum length " +:+ pretty n +:+ "."]) ∈ errors) /\
  (forall j, getitem kvs name = Some j ->
   j <> JNull -> (forall s, j <> JStr s) ->
   exists errors,
     load S (JObj kvs) = inl errors /\ (name, ["Not a valid string."]) ∈ errors).
Proof.
  intros (f & Hin & Hk & Hv)%string_fields_declared. split.
  - intros s Hg Hlen. eapply load_Invalid_field; [done|].
    unfold deserialize. rewrite Hg, Hk, Hv. cbn.
    by rewrite bool_decide_eq_true_2.
  - intros j Hg Hnull Hstr. eapply load_Invalid_field; [done|].
    unfold deserialize. rewrite Hg, Hk.
    destruct j; try done. by destruct (Hstr s).
Qed.

(** X17: a [price] must be a finite number and a [user_id] an integer: a
    boolean, an array or an object in their place fails validation with
    "Not a valid number." / "Not a valid integer.", and a price that is NaN
    or infinite with "Special numeric values (nan or infinity) are not
    permitted.". *)
Theorem numeric_field_rejected kvs :
  (forall j, getitem kvs "price" = Some j ->
   (exists b, j = JBool b) \/ (exists xs, j = JArr xs) \/ (exists o, j = JObj o) ->
   exists errors,
     load ProductSchema (JObj kvs) = inl errors /\
     ("price", ["Not a valid number."]) ∈ errors) /\
  (forall p, getitem kvs "price" = Some (JFloat p) ->
   is_nan p || is_infinity p = true ->
   exists errors,
     load ProductSchema (JObj kvs) = inl errors /\
     ("price",
      ["Special numeric values (nan or infinity) are not permitted."]) ∈ errors) /\
  (forall j, getitem kvs "user_id" = Some j ->
   (exists b, j = JBool b) \/ (exists xs, j = JArr xs) \/ (exists o, j = JObj o) ->
   exists errors,
     load OrderSchema (JObj kvs) = inl errors /\
     ("user_id", ["Not a valid integer."]) ∈ errors).
Proof.
  split; [|split].
  - intros j Hg Hj. eapply load_Invalid_field.
    + apply list_elem_of_In. vm_compute. eauto 10.
    + unfold deserialize. rewrite Hg.
      by destruct Hj as [[b ->]|[[xs ->]|[o ->]]].
  - intros p Hg Hp. eapply load_Invalid_field.
    + apply list_elem_of_In. vm_compute. eauto 10.
    + unfold deserialize. rewrite Hg.
      cbn [kind allow_none validate required _deserialize no_special].
      by rewrite Hp.
  - intros j Hg Hj. eapply load_Invalid_field.
    + apply list_elem_of_In. vm_compute. eauto 10.
    + unfold deserialize. rewrite Hg.
      by destruct Hj as [[b ->]|[[xs ->]|[o ->]]].
Qed.

Lemma getitem_Some_elem_of {A} (d : list (string * A)) k v :
  getitem d k = Some v -> (k, v) ∈ d.
Proof.
  induction d as [|[k' v'] d IH]; [done|]. simpl.
  destruct (String.eqb k' k) eqn:E.
  - apply String.eqb_eq in E as ->. intros [= ->]. by left.
  - intros Hg. right. by apply IH.
Qed.

Lemma getitem_None_outside {A} (d : list (string * A)) (keys : list string) k :
  (forall k' v, (k', v) ∈ d -> k' ∈ keys) -> k ∉ keys -> getitem d k = None.
Proof.
  intros Hkeys Hk. destruct (getitem d k) as [v|] eqn:E; [|done].
  apply getitem_Some_elem_of in E. by destruct (Hk (Hkeys _ _ E)).
Qed.

Lemma unknown_entries_nil S kvs :
  (forall k v, (k, v) ∈ kvs -> k ∈ (fields S).*1) -> unknown_entries S kvs = [].
Proof.
  intros Hkeys. unfold unknown_entries.
  destruct (filter _ kvs) as [|[k v] l] eqn:E; [done|].
  assert ((k, v) ∈ filter (fun kv : string * json => kv.1 ∉ (fields S).*1) kvs)
    as [Hout Hin]%list_elem_of_filter by (rewrite E; by left).
  by destruct (Hout (Hkeys _ _ Hin)).
Qed.

Ltac compute_schema S :=
  unfold load;
  let fs := eval vm_compute in (fields S) in
  change (fields S) with fs;
  let u := eval vm_compute in (unknown S) in
  change (unknown S) with u;
  cbn [load_fields].

Ltac declared_key Hkeys :=
  intros ? ? ?Hin; apply Hkeys in Hin; apply list_elem_of_In;
  apply list_elem_of_In in Hin; vm_compute; simpl in Hin; intuition.

(** X18: what validation lets through. A user body holding exactly a
    [name], an [address] and an [email] that are strings within 50, 150 and
    50 characters loads as those three values; a product body holding
    exactly a [product_name] within 100 characters and a finite float
    [price] loads as those two; an order body holding exactly an integer
    [user_id] loads as that id. *)
Theorem well_formed_bodies_accepted kvs :
  (forall name address email,
     getitem kvs "name" = Some (JStr name) ->
     getitem kvs "address" = Some (JStr address) ->
     getitem kvs "email" = Some (JStr email) ->
     (String.length name <= 50)%nat -> (String.length address <= 150)%nat ->
     (String.length email <= 50)%nat ->
     (forall k v, (k, v) ∈ kvs -> k ∈ ["name"; "address"; "email"]) ->
     load UserSchema (JObj kvs) =
       inr [("name", VStr name); ("address", VStr address); ("email", VStr email)]) /\
  (forall product_name price,
     getitem kvs "product_name" = Some (JStr product_name) ->
     getitem kvs "price" = Some (JFloat price) ->
     (String.length product_name <= 100)%nat ->
     is_nan price || is_infinity price = false ->
     (forall k v, (k, v) ∈ kvs -> k ∈ ["product_name"; "price"]) ->
     load ProductSchema (JObj kvs) =
       inr [("product_name", VStr product_name); ("price", VFloat price)]) /\
  (forall user_id,
     getitem kvs "user_id" = Some (JInt user_id) ->
     (forall k v, (k, v) ∈ kvs -> k ∈ ["user_id"]) ->
     load OrderSchema (JObj kvs) = inr [("user_id", VInt user_id)]).
Proof.
  split; [|split].
  - intros name address email Hn Ha He Ln La Le Hkeys.
    compute_schema UserSchema.
    rewrite (getitem_None_outside kvs ["name"; "address"; "email"] "id" Hkeys)
      by (apply (bool_decide_unpack _); vm_compute; exact I).
    rewrite Hn, Ha, He, unknown_entries_nil by declared_key Hkeys.
    unfold deserialize, _validate.
    cbn [kind required allow_none validate _deserialize map concat
           run_validator app].
    by rewrite !bool_decide_eq_false_2 by lia.
  - intros product_name price Hn Hp Ln Hfin Hkeys.
    compute_schema ProductSchema.
    rewrite (getitem_None_outside kvs ["product_name"; "price"] "id" Hkeys)
      by (apply (bool_decide_unpack _); vm_compute; exact I).
    rewrite Hn, Hp, unknown_entries_nil by declared_key Hkeys.
    unfold deserialize, _validate.
    cbn [kind required allow_none validate _deserialize no_special map concat
           run_validator app].
    rewrite Hfin. by rewrite !bool_decide_eq_false_2 by lia.
  - intros user_id Hu Hkeys.
    compute_schema OrderSchema.
    rewrite (getitem_None_outside kvs ["user_id"] "id" Hkeys)
      by (apply (bool_decide_unpack _); vm_compute; exact I).
    rewrite (getitem_None_outside kvs ["user_id"] "order_date" Hkeys)
      by (apply (bool_decide_unpack _); vm_compute; exact I).
    rewrite Hu, unknown_entries_nil by declared_key Hkeys.
    reflexivity.
Qed.

(** X19: ids are the store's to assign. A user body that also carries an
    integer [id] passes validation like the body without it, and
    [create_user] ignores the value: reply and store are the same as for
    the body without the [id]. *)
Theorem create_user_ignores_body_id kvs z db :
  getitem kvs "id" = None ->
  create_user (JObj (("id", JInt z) :: kvs)) db = create_user (JObj kvs) db.
Proof.
  intros Hid. unfold create_user. compute_schema UserSchema.
  unfold unknown_entries.
  let fs := eval vm_compute in (fields UserSchema) in
  change (fields UserSchema) with fs.
  rewrite filter_cons_False
    by (intros Hout; apply Hout, list_elem_of_In; vm_compute; eauto).
  cbn [getitem String.eqb Ascii.eqb Bool.eqb]. rewrite Hid.
  cbn [deserialize required kind allow_none validate _deserialize _validate
         map concat].
  repeat match goal with
         | |- context [deserialize ?f ?r] => destruct (deserialize f r)
         end;
    cbn [app fmap list_fmap]; try reflexivity;
    destruct (filter _ kvs); reflexivity.
Qed.

End Properties.

(** * Closed instances on the end-to-end example *)

Section Examples.
#[local] Existing Instance plain_runtime.

Import marshmallow.

(** The end-to-end example: ids are assigned from 1, and the order lists the
    one product added to it. *)
Example end_to_end :
  (create_user alice create_all).1 =
    Response (JObj [("address", JStr "X"); ("email", JStr "a@x.com");
                    ("id", JInt 1); ("name", JStr "A")]) 201 /\
  order_product (serve shop create_all) = [(1, 1)] /\
  (get_products_for_order 1 (serve shop create_all)).1 =
    Response (JArr [JObj [("id", JInt 1); ("price", JFloat widget_price);
                          ("product_name", JStr "Widget")]]) 200.
Proof. vm_compute. repeat split. Qed.

Lemma get_missing_is_empty_success_witness :
  get_user 7 create_all = (Response (JObj []) 200, create_all) /\
  get_product 7 create_all = (Response (JObj []) 200, create_all).
Proof.
  split.
  - apply (proj1 (get_missing_is_empty_success create_all 7)). reflexivity.
  - apply (proj2 (get_missing_is_empty_success create_all 7)). reflexivity.
Defined.

Lemma create_order_invalid_user_witness :
  create_order epoch (order_for 7) create_all =
    (Response (message "Invalid user_id") 400, create_all).
Proof.
  apply (create_order_invalid_user epoch (order_for 7) [("user_id", VInt 7)] 7 create_all).
  - vm_compute. reflexivity.
  - reflexivity.
  - reflexivity.
Defined.

Lemma add_prod_to_order_frame_witness :
  exists db',
    add_prod_to_order 1 1 (serve stocked create_all) =
      (Response
         (order_schema_dump (Some (1, {| Order.order_date := epoch; Order.user_id := 1 |})))
         200, db') /\
    order_product db' = order_product (serve stocked create_all) ++ [(1, 1)] /\
    orders db' = orders (serve stocked create_all) /\
    products db' = products (serve stocked create_all) /\
    users db' = users (serve stocked create_all) /\
    (users_next_id db', orders_next_id db', products_next_id db') =
      (users_next_id (serve stocked create_all),
       orders_next_id (serve stocked create_all),
       products_next_id (serve stocked create_all)) /\
    forall other, other <> 1 ->
      Order_products db' other = Order_products (serve stocked create_all) other.
Proof.
  apply (add_prod_to_order_frame (serve stocked create_all) 1 1
           {| Order.order_date := epoch; Order.user_id := 1 |}
           {| Product.product_name := "Widget"; Product.price := widget_price |}).
  - vm_compute. reflexivity.
  - vm_compute. reflexivity.
  - vm_compute. intros Hin. inversion Hin.
Defined.
Lemma add_then_remove_restores_witness :
  remove_prod_from_order 9 1 (serve stocked create_all) =
    (Response (message "Invalid order ID") 400, serve stocked create_all) /\
  remove_prod_from_order 1 9 (serve stocked create_all) =
    (Response (message "Invalid product ID") 400, serve stocked create_all) /\
  exists body db1,
    add_prod_to_order 1 1 (serve stocked create_all) = (Response body 200, db1) /\
    remove_prod_from_order 1 1 db1 =
      (Response (message "Product 1 removed from order 1") 200,
       serve stocked create_all) /\
    (1 ∉ (Order_products (serve stocked create_all) 1).*1) /\
    ((get_products_for_order 1 (serve stocked create_all)).1 =
       Response (message "No products found for this order") 404 \/
     exists ps,
       (get_products_for_order 1 (serve stocked create_all)).1 =
         Response (products_schema_dump ps) 200 /\
       1 ∉ ps.*1) /\
    remove_prod_from_order 1 1 (serve stocked create_all) =
      (Response (message "Product not found in the order") 404,
       serve stocked create_all).
Proof.
  split; [|split].
  - apply (proj1 (add_then_remove_restores (serve stocked create_all) 9 1)).
    vm_compute. reflexivity.
  - apply (proj1 (proj2 (add_then_remove_restores (serve stocked create_all) 1 9))).
    + eexists. vm_compute. reflexivity.
    + vm_compute. reflexivity.
  - apply (proj2 (proj2 (add_then_remove_restores (serve stocked create_all) 1 1))).
    + eexists. vm_compute. reflexivity.
    + eexists. vm_compute. reflexivity.
    + vm_compute. intros Hin. inversion Hin.
Defined.

Lemma add_prod_to_order_twice_witness :
  add_prod_to_order 1 1 (serve shop create_all) =
    (Response (message "Product already exists in the order") 400,
     serve shop create_all) /\
  NoDup (order_product (serve shop create_all)) /\
  exists ps,
    get_products_for_order 1 (serve shop create_all) =
      (Response (products_schema_dump ps) 200, serve shop create_all) /\
    length (filter (fun p : Z * Product.row => p.1 = 1) ps) = 1%nat.
Proof.
  apply (add_prod_to_order_twice shop 1 1).
  vm_compute. constructor.
Defined.

Lemma delete_product_guard_witness :
  delete_product 2 (serve shop create_all) =
    (Response (message "Product not found") 404, serve shop create_all) /\
  delete_product 1 (serve shop create_all) =
    (Response (message "Cannot delete product because it is associated with orders")
       400, serve shop create_all) /\
  (exists db',
     delete_product 1 (serve stocked create_all) =
       (Response (JArr [message "Successfully deleted product 1"; JInt 200]) 200, db') /\
     products db' = delete 1 (products (serve stocked create_all)) /\
     users db' = users (serve stocked create_all) /\
     orders db' = orders (serve stocked create_all) /\
     order_product db' = order_product (serve stocked create_all)) /\
  (exists db',
     delete_product 1
       (serve [DELETE_orders_remove_product 1 1] (serve shop create_all)) =
       (Response (JArr [message "Successfully deleted product 1"; JInt 200]) 200, db') /\
     products db' !! 1 = None).
Proof.
  split; [|split; [|split]].
  - apply (proj1 (delete_product_guard shop _ 2 eq_refl)). vm_compute. reflexivity.
  - apply (proj1 (proj2 (delete_product_guard shop _ 1 eq_refl))).
    exists 1. vm_compute. constructor.
  - apply (proj1 (proj2 (proj2 (delete_product_guard stocked _ 1 eq_refl)))).
    + eexists. vm_compute. reflexivity.
    + intros order_id. vm_compute. intros Hin. inversion Hin.
  - apply (proj2 (proj2 (proj2 (delete_product_guard shop _ 1 eq_refl)))).
    eexists. vm_compute. reflexivity.
Defined.



Lemma create_user_same_email_witness :
  create_user bob_as_alice (create_user alice create_all).2 =
    (Raised IntegrityError, (create_user alice create_all).2) /\
  (create_user alice create_all).1 =
    Response
      (user_schema_dump
         (Some (1, {| User.name := "A"; User.address := "X";
                      User.email := "a@x.com" |}))) 201 /\
  users (create_user alice create_all).2 !! 1 =
    Some {| User.name := "A"; User.address := "X"; User.email := "a@x.com" |}.
Proof.
  assert (load UserSchema alice =
            inr [("name", VStr "A"); ("address", VStr "X"); ("email", VStr "a@x.com")])
    as Hl1 by (vm_compute; reflexivity).
  assert (load UserSchema bob_as_alice =
            inr [("name", VStr "B"); ("address", VStr "Y"); ("email", VStr "a@x.com")])
    as Hl2 by (vm_compute; reflexivity).
  split.
  - apply (proj1 (create_user_same_email create_all alice bob_as_alice _ _ "A" "X"
                    "a@x.com" Hl1 eq_refl eq_refl eq_refl Hl2 eq_refl)).
  - apply (proj2 (create_user_same_email create_all alice bob_as_alice _ _ "A" "X"
                    "a@x.com" Hl1 eq_refl eq_refl eq_refl Hl2 eq_refl)).
    apply (bool_decide_unpack _). vm_compute. exact I.
Defined.

(** The second of two [create_user] calls with one email raises instead of
    answering with an error response. *)
Lemma second_create_user_raises :
  (create_user alice (create_user alice create_all).2).1 = Raised IntegrityError.
Proof. vm_compute. reflexivity. Qed.

Lemma update_user_replaces_witness :
  update_user 9 bob_as_alice (serve [POST_users alice; POST_users bob] create_all) =
    (Response (message "Invalid user id") 400,
     serve [POST_users alice; POST_users bob] create_all) /\
  (exists db',
     update_user 1 bob_as_alice (serve [POST_users alice; POST_users bob] create_all) =
       (Response
          (user_schema_dump
             (Some (1, {| User.name := "B"; User.address := "Y";
                          User.email := "a@x.com" |}))) 200, db') /\
     users db' =
       <[1 := {| User.name := "B"; User.address := "Y"; User.email := "a@x.com" |}]>
         (users (serve [POST_users alice; POST_users bob] create_all)) /\
     orders db' = orders (serve [POST_users alice; POST_users bob] create_all) /\
     products db' = products (serve [POST_users alice; POST_users bob] create_all) /\
     order_product db' =
       order_product (serve [POST_users alice; POST_users bob] create_all)) /\
  update_user 2 bob_as_alice (serve [POST_users alice; POST_users bob] create_all) =
    (Raised IntegrityError, serve [POST_users alice; POST_users bob] create_all).
Proof.
  pose (d := [("name", VStr "B"); ("address", VStr "Y"); ("email", VStr "a@x.com")]).
  assert (load UserSchema bob_as_alice = inr d) as Hl by (vm_compute; reflexivity).
  split; [|split].
  - apply (proj1 (update_user_replaces _ 9 bob_as_alice d "B" "Y" "a@x.com"
                    Hl eq_refl eq_refl eq_refl)).
    vm_compute. reflexivity.
  - apply (proj1 (proj2 (update_user_replaces _ 1 bob_as_alice d "B" "Y" "a@x.com"
                           Hl eq_refl eq_refl eq_refl))).
    + eexists. vm_compute. reflexivity.
    + apply (bool_decide_unpack _). vm_compute. exact I.
  - apply (proj2 (proj2 (update_user_replaces _ 2 bob_as_alice d "B" "Y" "a@x.com"
                           Hl eq_refl eq_refl eq_refl))).
    + eexists. vm_compute. reflexivity.
    + apply (bool_decide_unpack _). vm_compute. exact I.
Defined.

(** Giving a user the email of another user raises instead of answering
    with an error response. *)
Lemma update_user_to_taken_email_raises :
  (update_user 2 bob_as_alice
     (serve [POST_users alice; POST_users bob] create_all)).1 =
  Raised IntegrityError.
Proof. vm_compute. reflexivity. Qed.

Lemma unknown_field_rejected_witness :
  exists errors,
    load UserSchema alice_nickname = inl errors /\
    ("nickname", ["Unknown field."]) ∈ errors.
Proof.
  apply (unknown_field_rejected UserSchema _ "nickname" (JStr "al")).
  - left.
  - do 3 right. left.
  - apply (bool_decide_unpack _). vm_compute. exact I.
Defined.

(** A body that validates is rejected once an undeclared field is added to
    it, and [create_user] answers 400 without storing the user. *)
Lemma extra_field_is_rejected :
  load UserSchema alice =
    inr [("name", VStr "A"); ("address", VStr "X"); ("email", VStr "a@x.com")] /\
  load UserSchema alice_nickname = inl [("nickname", ["Unknown field."])] /\
  create_user alice_nickname create_all =
    (Response (JObj [("nickname", JArr [JStr "Unknown field."])]) 400, create_all).
Proof. vm_compute. repeat split. Qed.

End Examples.

(** * Closed instances of the further properties *)

Section MoreExamples.
#[local] Existing Instance plain_runtime.

Import marshmallow.

Lemma integrity_error_only_from_user_writes_witness :
  writes_users (POST_users alice) = true.
Proof.
  apply (integrity_error_only_from_user_writes [POST_users alice] (POST_users alice)).
  vm_compute. reflexivity.
Defined.

Lemma reachable_emails_unique_witness : 2 = 2.
Proof.
  apply (reachable_emails_unique two_users 2 2
           {| User.name := "B"; User.address := "Y"; User.email := "b@y.com" |}
           {| User.name := "B"; User.address := "Y"; User.email := "b@y.com" |}).
  - vm_compute. reflexivity.
  - vm_compute. reflexivity.
  - reflexivity.
Defined.

Lemma reachable_orders_have_users_witness :
  is_Some (users (serve shop create_all) !! 1).
Proof.
  apply (reachable_orders_have_users shop 1
           {| Order.order_date := epoch; Order.user_id := 1 |}).
  vm_compute. reflexivity.
Defined.

Lemma reachable_rows_fit_columns_witness :
  fits_user {| User.name := "A"; User.address := "X"; User.email := "a@x.com" |} /\
  fits_product {| Product.product_name := "Widget"; Product.price := widget_price |}.
Proof.
  split.
  - apply (proj1 (reachable_rows_fit_columns shop) 1). vm_compute. reflexivity.
  - apply (proj2 (reachable_rows_fit_columns shop) 1). vm_compute. reflexivity.
Defined.

Lemma create_user_then_get_user_witness :
  exists id db',
    create_user bob (serve [POST_users alice] create_all) =
      (Response
         (user_schema_dump
            (Some (id, {| User.name := "B"; User.address := "Y";
                          User.email := "b@y.com" |}))) 201, db') /\
    users (serve [POST_users alice] create_all) !! id = None /\
    (forall other, other <> id ->
       users db' !! other = users (serve [POST_users alice] create_all) !! other) /\
    get_user id db' =
      (Response
         (user_schema_dump
            (Some (id, {| User.name := "B"; User.address := "Y";
                          User.email := "b@y.com" |}))) 200, db').
Proof.
  apply (create_user_then_get_user [POST_users alice] bob
           [("name", VStr "B"); ("address", VStr "Y"); ("email", VStr "b@y.com")]).
  - vm_compute. reflexivity.
  - reflexivity.
  - reflexivity.
  - reflexivity.
  - apply (bool_decide_unpack _). vm_compute. exact I.
Defined.

Lemma create_product_then_get_product_witness :
  exists id db',
    create_product refund (serve stocked create_all) =
      (Response
         (product_schema_dump
            (Some (id, {| Product.product_name := "Widget"; Product.price := -1 |})))
         201, db') /\
    products (serve stocked create_all) !! id = None /\
    (forall other, other <> id ->
       products db' !! other = products (serve stocked create_all) !! other) /\
    order_product db' = order_product (serve stocked create_all) /\
    get_product id db' =
      (Response
         (product_schema_dump
            (Some (id, {| Product.product_name := "Widget"; Product.price := -1 |})))
         200, db').
Proof.
  apply (create_product_then_get_product stocked refund
           [("product_name", VStr "Widget"); ("price", VFloat (-1))]).
  - vm_compute. reflexivity.
  - reflexivity.
  - reflexivity.
Defined.

Lemma create_order_starts_empty_witness :
  exists id order_date db',
    create_order epoch (order_for 1) (serve [POST_users alice] create_all) =
      (Response
         (order_schema_dump
            (Some (id, {| Order.order_date := order_date; Order.user_id := 1 |})))
         201, db') /\
    (getitem [("user_id", VInt 1)] "order_date" = None -> order_date = epoch) /\
    (forall d, getitem [("user_id", VInt 1)] "order_date" = Some (VDateTime d) ->
       order_date = d) /\
    orders (serve [POST_users alice] create_all) !! id = None /\
    orders db' !! id =
      Some {| Order.order_date := order_date; Order.user_id := 1 |} /\
    get_products_for_order id db' =
      (Response (message "No products found for this order") 404, db').
Proof.
  apply (create_order_starts_empty [POST_users alice] epoch (order_for 1)
           [("user_id", VInt 1)] 1
           {| User.name := "A"; User.address := "X"; User.email := "a@x.com" |}).
  - vm_compute. reflexivity.
  - reflexivity.
  - vm_compute. reflexivity.
Defined.
Lemma get_orders_lists_user_orders_witness :
  get_orders 9 (serve shop create_all) =
    (Response (message "No orders found for this user.") 404, serve shop create_all) /\
  exists l,
    get_orders 1 (serve shop create_all) =
      (Response (orders_schema_dump l) 200, serve shop create_all) /\
    forall id' o',
      (id', o') ∈ l <->
      orders (serve shop create_all) !! id' = Some o' /\ Order.user_id o' = 1.
Proof.
  split.
  - apply (proj1 (get_orders_lists_user_orders 9 (serve shop create_all))).
    assert (map_Forall (fun _ (o : Order.row) => Order.user_id o <> 9)
              (orders (serve shop create_all))) as Hall
      by (apply (bool_decide_unpack _); vm_compute; exact I).
    exact Hall.
  - apply (proj2 (get_orders_lists_user_orders 1 (serve shop create_all)) 1
             {| Order.order_date := epoch; Order.user_id := 1 |}).
    + vm_compute. reflexivity.
    + reflexivity.
Defined.

Lemma get_products_for_order_lists_witness :
  get_products_for_order 9 (serve shop create_all) =
    (Response (message "Order not found") 404, serve shop create_all) /\
  get_products_for_order 1 (serve stocked create_all) =
    (Response (message "No products found for this order") 404,
     serve stocked create_all) /\
  exists l,
    get_products_for_order 1 (serve shop create_all) =
      (Response (products_schema_dump l) 200, serve shop create_all) /\
    forall i q,
      (i, q) ∈ l <->
      (1, i) ∈ order_product (serve shop create_all) /\
      products (serve shop create_all) !! i = Some q.
Proof.
  split; [|split].
  - apply (proj1 (get_products_for_order_lists 9 (serve shop create_all))).
    vm_compute. reflexivity.
  - apply (proj1 (proj2 (get_products_for_order_lists 1 (serve stocked create_all)))).
    + eexists. vm_compute. reflexivity.
    + intros product_id Hin. vm_compute in Hin. inversion Hin.
  - apply (proj2 (proj2 (get_products_for_order_lists 1 (serve shop create_all)))
             ltac:(eexists; vm_compute; reflexivity) 1
             {| Product.product_name := "Widget"; Product.price := widget_price |}).
    + vm_compute. constructor.
    + vm_compute. reflexivity.
Defined.

Lemma delete_user_guard_witness :
  delete_user 9 (serve two_users create_all) =
    (Response (message "Invalid user id") 400, serve two_users create_all) /\
  delete_user 1 (serve two_users create_all) =
    (Raised IntegrityError, serve two_users create_all) /\
  exists db',
    delete_user 2 (serve two_users create_all) =
      (Response (JArr [message "Successfully deleted user 2"; JInt 200]) 200, db') /\
    users db' = delete 2 (users (serve two_users create_all)) /\
    orders db' = orders (serve two_users create_all) /\
    products db' = products (serve two_users create_all) /\
    order_product db' = order_product (serve two_users create_all) /\
    get_user 2 db' = (Response (JObj []) 200, db').
Proof.
  split; [|split].
  - apply (proj1 (delete_user_guard 9 (serve two_users create_all))).
    vm_compute. reflexivity.
  - apply (proj1 (proj2 (delete_user_guard 1 (serve two_users create_all)))).
    + eexists. vm_compute. reflexivity.
    + exists 1, {| Order.order_date := epoch; Order.user_id := 1 |}.
      split; [vm_compute; reflexivity|reflexivity].
  - apply (proj2 (proj2 (delete_user_guard 2 (serve two_users create_all)))).
    + eexists. vm_compute. reflexivity.
    + assert (map_Forall (fun _ (o : Order.row) => Order.user_id o <> 2)
                (orders (serve two_users create_all))) as Hall
        by (apply (bool_decide_unpack _); vm_compute; exact I).
      exact Hall.
Defined.

Lemma remove_prod_from_order_frame_witness :
  exists db',
    remove_prod_from_order 1 1 (serve shop create_all) =
      (Response (message "Product 1 removed from order 1") 200, db') /\
    ((1, 1) ∉ order_product db') /\
    (forall pair, pair <> (1, 1) ->
       pair ∈ order_product db' <-> pair ∈ order_product (serve shop create_all)) /\
    users db' = users (serve shop create_all) /\
    orders db' = orders (serve shop create_all) /\
    products db' = products (serve shop create_all) /\
    (1 ∉ (Order_products db' 1).*1).
Proof.
  apply (remove_prod_from_order_frame (serve shop create_all) 1 1
           {| Order.order_date := epoch; Order.user_id := 1 |}
           {| Product.product_name := "Widget"; Product.price := widget_price |}).
  - vm_compute. reflexivity.
  - vm_compute. reflexivity.
  - vm_compute. constructor.
Defined.

Lemma add_prod_to_order_then_listed_witness :
  exists body db' l,
    add_prod_to_order 1 1 (serve second_product_first create_all) =
      (Response body 200, db') /\
    get_products_for_order 1 db' = (Response (products_schema_dump l) 200, db') /\
    (forall i q,
       (i, q) ∈ l <->
       (i, q) ∈ Order_products (serve second_product_first create_all) 1 \/
       (i, q) = (1, {| Product.product_name := "Widget";
                       Product.price := widget_price |})) /\
    length l = S (length (Order_products (serve second_product_first create_all) 1)).
Proof.
  apply (add_prod_to_order_then_listed (serve second_product_first create_all) 1 1
           {| Order.order_date := epoch; Order.user_id := 1 |}
           {| Product.product_name := "Widget"; Product.price := widget_price |}).
  - vm_compute. reflexivity.
  - vm_compute. reflexivity.
  - apply (bool_decide_unpack _). vm_compute. exact I.
Defined.

(** With the second product added before the first, the order lists them
    by id. *)
Example listing_by_product_id :
  (get_products_for_order 1
     (serve (second_product_first ++ [PUT_orders_add_product 1 1]) create_all)).1 =
  Response
    (JArr [JObj [("id", JInt 1); ("price", JFloat widget_price);
                 ("product_name", JStr "Widget")];
           JObj [("id", JInt 2); ("price", JFloat (-1));
                 ("product_name", JStr "Widget")]]) 200.
Proof. vm_compute. reflexivity. Qed.

Lemma update_product_shows_in_orders_witness :
  exists db',
    update_product 1 refund (serve shop create_all) =
      (Response
         (product_schema_dump
            (Some (1, {| Product.product_name := "Widget"; Product.price := -1 |})))
         200, db') /\
    (forall other, other <> 1 ->
       products db' !! other = products (serve shop create_all) !! other) /\
    users db' = users (serve shop create_all) /\
    orders db' = orders (serve shop create_all) /\
    order_product db' = order_product (serve shop create_all) /\
    forall order_id,
      Order_products db' order_id =
      (fun ip : Z * Product.row =>
         if bool_decide (ip.1 = 1)
         then (1, {| Product.product_name := "Widget"; Product.price := -1 |})
         else ip) <$> Order_products (serve shop create_all) order_id.
Proof.
  apply (update_product_shows_in_orders (serve shop create_all) 1 refund
           [("product_name", VStr "Widget"); ("price", VFloat (-1))]).
  - eexists. vm_compute. reflexivity.
  - vm_compute. reflexivity.
  - reflexivity.
  - reflexivity.
Defined.

Lemma required_field_missing_rejected_witness :
  (exists errors,
     load UserSchema (JObj [("name", JStr "A"); ("address", JStr "X")]) = inl errors /\
     ("email", ["Missing data for required field."]) ∈ errors) /\
  (exists errors,
     load OrderSchema (JObj [("user_id", JNull)]) = inl errors /\
     ("user_id", ["Field may not be null."]) ∈ errors).
Proof.
  split.
  - apply (proj1 (required_field_missing_rejected UserSchema "email"
                    [("name", JStr "A"); ("address", JStr "X")]
                    ltac:(do 2 right; left))).
    reflexivity.
  - apply (proj2 (required_field_missing_rejected OrderSchema "user_id"
                    [("user_id", JNull)] ltac:(do 3 right; left))).
    reflexivity.
Defined.

Lemma string_field_bounds_rejected_witness :
  (exists errors,
     load UserSchema
       (JObj [("name", JStr long_name); ("address", JStr "X");
              ("email", JStr "a@x.com")]) = inl errors /\
     ("name", ["Longer than maximum length 50."]) ∈ errors) /\
  (exists errors,
     load ProductSchema (JObj [("product_name", JInt 5); ("price", JFloat 1)]) =
       inl errors /\
     ("product_name", ["Not a valid string."]) ∈ errors).
Proof.
  split.
  - apply (proj1 (string_field_bounds_rejected UserSchema "name" 50
                    [("name", JStr long_name); ("address", JStr "X");
                     ("email", JStr "a@x.com")] ltac:(left)) long_name).
    + reflexivity.
    + vm_compute. lia.
  - apply (proj2 (string_field_bounds_rejected ProductSchema "product_name" 100
                    [("product_name", JInt 5); ("price", JFloat 1)]
                    ltac:(do 3 right; left)) (JInt 5)).
    + reflexivity.
    + discriminate.
    + discriminate.
Defined.

Lemma numeric_field_rejected_witness :
  (exists errors,
     load ProductSchema
       (JObj [("product_name", JStr "Widget"); ("price", JBool true)]) = inl errors /\
     ("price", ["Not a valid number."]) ∈ errors) /\
  (exists errors,
     load ProductSchema
       (JObj [("product_name", JStr "Widget"); ("price", JFloat infinity)]) =
       inl errors /\
     ("price",
      ["Special numeric values (nan or infinity) are not permitted."]) ∈ errors) /\
  (exists errors,
     load OrderSchema (JObj [("user_id", JArr [JInt 1])]) = inl errors /\
     ("user_id", ["Not a valid integer."]) ∈ errors).
Proof.
  split; [|split].
  - apply (proj1 (numeric_field_rejected
                    [("product_name", JStr "Widget"); ("price", JBool true)])
             (JBool true)).
    + reflexivity.
    + left. by exists true.
  - apply (proj1 (proj2 (numeric_field_rejected
                    [("product_name", JStr "Widget"); ("price", JFloat infinity)]))
             infinity).
    + reflexivity.
    + vm_compute. reflexivity.
  - apply (proj2 (proj2 (numeric_field_rejected [("user_id", JArr [JInt 1])]))
             (JArr [JInt 1])).
    + reflexivity.
    + right. left. by exists [JInt 1].
Defined.

Lemma well_formed_bodies_accepted_witness :
  load UserSchema alice =
    inr [("name", VStr "A"); ("address", VStr "X"); ("email", VStr "a@x.com")] /\
  load ProductSchema refund =
    inr [("product_name", VStr "Widget"); ("price", VFloat (-1))] /\
  load OrderSchema (order_for 1) = inr [("user_id", VInt 1)].
Proof.
  split; [|split].
  - apply (proj1 (well_formed_bodies_accepted
                    [("name", JStr "A"); ("address", JStr "X");
                     ("email", JStr "a@x.com")]) "A" "X" "a@x.com");
      try reflexivity; try (vm_compute; lia).
    intros k v Hin. apply list_elem_of_In. apply list_elem_of_In in Hin.
    simpl in *. repeat destruct Hin as [Hin|Hin]; try done;
      injection Hin as <- _; auto 10.
  - apply (proj1 (proj2 (well_formed_bodies_accepted
                    [("product_name", JStr "Widget"); ("price", JFloat (-1))]))
             "Widget" (-1)%float);
      try reflexivity; try (vm_compute; lia).
    intros k v Hin. apply list_elem_of_In. apply list_elem_of_In in Hin.
    simpl in *. repeat destruct Hin as [Hin|Hin]; try done;
      injection Hin as <- _; auto 10.
  - apply (proj2 (proj2 (well_formed_bodies_accepted [("user_id", JInt 1)])) 1);
      try reflexivity.
    intros k v Hin. apply list_elem_of_In. apply list_elem_of_In in Hin.
    simpl in *. repeat destruct Hin as [Hin|Hin]; try done;
      injection Hin as <- _; auto 10.
Defined.

Lemma create_user_ignores_body_id_witness :
  create_user
    (JObj [("id", JInt 99); ("name", JStr "A"); ("address", JStr "X");
           ("email", JStr "a@x.com")]) create_all =
  create_user alice create_all.
Proof.
  apply (create_user_ignores_body_id
           [("name", JStr "A"); ("address", JStr "X"); ("email", JStr "a@x.com")]
           99 create_all).
  reflexivity.
Defined.

End MoreExamples.
